(** * result_variants.py: the [Ok] / [Err] result monad

    A shallow embedding of [src/result_variants.py].  Python objects live in
    a store; an [Ok] or [Err] instance is a store cell holding its class and
    its single slot [value].  Code runs in a state-and-exception monad over
    the store, so that the in-place update of [wrap], the [return self] of
    the pass-through methods and the [try] / [except Exception] blocks are
    all modelled the way the source writes them. *)

From Stdlib Require Import ZArith.
From stdpp Require Import base option list strings.

#[local] Set Warnings "-register-all".

(** ** Values *)

(** The part of Python's exception hierarchy that [except Exception]
    distinguishes: everything raised derives from [BaseException]; the
    clause catches the classes deriving from [Exception] only. *)
Inductive exn_class : Set :=
  | BaseException
  | KeyboardInterrupt
  | SystemExit
  | GeneratorExit
  | Exception
  | ZeroDivisionError
  | AttributeError
  | TypeError
  | ValueError.

(** [issubclass(c, Exception)] *)
Definition issubclass_Exception (c : exn_class) : bool :=
  match c with
  | BaseException | KeyboardInterrupt | SystemExit | GeneratorExit => false
  | Exception | ZeroDivisionError | AttributeError | TypeError | ValueError => true
  end.

Record exn : Set := Exn { exn_cls : exn_class; exn_msg : string }.

(** [isinstance(e, Exception)] *)
Definition isinstance_Exception (e : exn) : bool :=
  issubclass_Exception (exn_cls e).

(** Store addresses: the identity of an instance. *)
Abbreviation loc := nat.

Inductive val : Set :=
  | VNone
  | VBool (b : bool)
  | VInt (z : Z)
  | VStr (s : string)
  | VTuple (vs : list val)
  | VExc (e : exn)
  | VRef (l : loc).

(** The two concrete subclasses of [ResultAbc]. *)
Inductive klass : Set := Ok_k | Err_k.

(** An instance: its class, fixed at creation, and the slot
    [__slots__ = "value"]. *)
Record object : Set := Object { cls : klass; value : val }.

Abbreviation heap := (list object).

(** ** The execution monad *)

Inductive outcome (A : Type) : Type :=
  | Returns (a : A)
  | Raises (e : exn).
Arguments Returns {A} a.
Arguments Raises {A} e.

Definition M (A : Type) : Type := heap -> outcome A * heap.

Definition ret {A} (a : A) : M A := fun h => (Returns a, h).

Definition raise {A} (e : exn) : M A := fun h => (Raises e, h).

Definition bindM {A B} (m : M A) (k : A -> M B) : M B :=
  fun h =>
    match m h with
    | (Returns a, h') => k a h'
    | (Raises e, h') => (Raises e, h')
    end.

Notation "'let!' x ':=' m 'in' k" := (bindM m (fun x => k))
  (at level 10, x name, m at level 100, k at level 200, only parsing).

(** [try: body  except Exception as e: handler(e)].  An exception that does
    not derive from [Exception] is not matched by the clause and goes on to
    the caller. *)
Definition try_except_Exception {A} (body : M A) (handler : exn -> M A) : M A :=
  fun h =>
    match body h with
    | (Returns a, h') => (Returns a, h')
    | (Raises e, h') =>
        if isinstance_Exception e then handler e h' else (Raises e, h')
    end.

(** A Python callable of one argument, and one taking [*a, **kw]. *)
Definition callable := val -> M val.
Definition callable_star := list val -> list (string * val) -> M val.

Definition attribute_error : exn :=
  Exn AttributeError "object has no attribute 'value'".

(** [x.value]: only instances carry the slot. *)
Definition getattr_value (x : val) : M val :=
  fun h =>
    match x with
    | VRef l =>
        match h !! l with
        | Some o => (Returns (value o), h)
        | None => (Raises attribute_error, h)
        end
    | _ => (Raises attribute_error, h)
    end.

(** [self.value = v]: the slot is overwritten, the class stays. *)
Definition setattr_value (self : loc) (v : val) : M unit :=
  fun h => (Returns tt, alter (fun o => Object (cls o) v) self h).

(** [Ok(v)] and [Err(v)]: a fresh instance whose [__init__] stores [v]. *)
Definition instantiate (k : klass) (v : val) : M val :=
  fun h => (Returns (VRef (length h)), h ++ [Object k v]).

(** ** class Ok *)
Module Ok.

Definition __bool__ (self : loc) : M val := ret (VBool true).

Definition wrap (self : loc) (v : val) : M val :=
  let! _ := setattr_value self v in
  ret (VRef self).

Definition unwrap (self : loc) : M val := getattr_value (VRef self).

Definition fmap (self : loc) (f : callable) : M val :=
  try_except_Exception
    (let! v := getattr_value (VRef self) in
     let! w := f v in
     instantiate Ok_k w)
    (fun e => instantiate Err_k (VExc e)).

Definition and_fmap := fmap.

Definition bind (self : loc) (f : callable) : M val :=
  let! v := getattr_value (VRef self) in
  f v.

Definition and_bind := bind.

Definition or_fmap (self : loc) (f : callable) : M val := ret (VRef self).

Definition or_bind (self : loc) (f : callable) : M val := ret (VRef self).

Definition join (self : loc) (other : val) : M val :=
  let! a := getattr_value (VRef self) in
  let! b := getattr_value other in
  instantiate Ok_k (VTuple [a; b]).

End Ok.

(** ** class Err *)
Module Err.

Definition wrap (self : loc) (v : val) : M val :=
  let! _ := setattr_value self v in
  ret (VRef self).

Definition unwrap (self : loc) : M val := getattr_value (VRef self).

Definition fmap (self : loc) (f : callable) : M val := ret (VRef self).

Definition and_fmap := fmap.

Definition bind (self : loc) (f : callable) : M val := ret (VRef self).

Definition and_bind := bind.

Definition or_bind (self : loc) (f : callable) : M val :=
  let! v := getattr_value (VRef self) in
  f v.

Definition join (self : loc) (other : val) : M val :=
  let! a := getattr_value (VRef self) in
  let! b := getattr_value other in
  instantiate Err_k (VTuple [a; b]).

Definition or_fmap (self : loc) (f : callable) : M val :=
  try_except_Exception
    (let! v := getattr_value (VRef self) in
     let! w := f v in
     instantiate Err_k w)
    (fun e => instantiate Err_k (VExc e)).

Definition __bool__ (self : loc) : M val := ret (VBool false).

End Err.

(** ** Method resolution *)

(** [isinstance(x, ResultAbc)]: [Ok] and [Err] are the only subclasses. *)
Definition isinstance_ResultAbc (h : heap) (x : val) : bool :=
  match x with
  | VRef l => match h !! l with Some _ => true | None => false end
  | _ => false
  end.

(** [x.m(...)]: the method is looked up in the class of the receiver; a
    value that is no instance has no such attribute. *)
Definition dispatch {A} (x : val) (ok_m err_m : loc -> M A) : M A :=
  fun h =>
    match x with
    | VRef l =>
        match h !! l with
        | Some o =>
            match cls o with
            | Ok_k => ok_m l h
            | Err_k => err_m l h
            end
        | None => (Raises attribute_error, h)
        end
    | _ => (Raises attribute_error, h)
    end.

(** ** class ResultAbc *)
Module ResultAbc.

(** The method shared by both subclasses.  The test is on [self]. *)
Definition flatten (self : val) : M val :=
  fun h =>
    if isinstance_ResultAbc h self
    then dispatch self Ok.unwrap Err.unwrap h
    else ret self h.

(** The behaviour the docstring of [flatten] describes: "Return a nested
    Ok or Err object.  If the wrapped value is not Ok|Err, the return is
    self."  Used only to compare with [flatten]. *)
Definition flatten_documented (self : val) : M val :=
  let! v := getattr_value self in
  fun h => if isinstance_ResultAbc h v then ret v h else ret self h.

End ResultAbc.

(** ** Result = Union[Ok, Err]: calls on a receiver of either class *)
Module Result.

Definition __bool__ (x : val) : M val := dispatch x Ok.__bool__ Err.__bool__.
Definition wrap (x v : val) : M val :=
  dispatch x (fun l => Ok.wrap l v) (fun l => Err.wrap l v).
Definition unwrap (x : val) : M val := dispatch x Ok.unwrap Err.unwrap.
Definition fmap (x : val) (f : callable) : M val :=
  dispatch x (fun l => Ok.fmap l f) (fun l => Err.fmap l f).
Definition and_fmap (x : val) (f : callable) : M val :=
  dispatch x (fun l => Ok.and_fmap l f) (fun l => Err.and_fmap l f).
Definition bind (x : val) (f : callable) : M val :=
  dispatch x (fun l => Ok.bind l f) (fun l => Err.bind l f).
Definition and_bind (x : val) (f : callable) : M val :=
  dispatch x (fun l => Ok.and_bind l f) (fun l => Err.and_bind l f).
Definition or_fmap (x : val) (f : callable) : M val :=
  dispatch x (fun l => Ok.or_fmap l f) (fun l => Err.or_fmap l f).
Definition or_bind (x : val) (f : callable) : M val :=
  dispatch x (fun l => Ok.or_bind l f) (fun l => Err.or_bind l f).
Definition join (x other : val) : M val :=
  dispatch x (fun l => Ok.join l other) (fun l => Err.join l other).
Definition flatten (x : val) : M val :=
  dispatch x (fun l => ResultAbc.flatten (VRef l))
             (fun l => ResultAbc.flatten (VRef l)).

(** The operations of the interface, as data. *)
Inductive method : Type :=
  | m_bool
  | m_wrap (v : val)
  | m_unwrap
  | m_fmap (f : callable)
  | m_and_fmap (f : callable)
  | m_bind (f : callable)
  | m_and_bind (f : callable)
  | m_or_fmap (f : callable)
  | m_or_bind (f : callable)
  | m_join (other : val)
  | m_flatten.

Definition call (x : val) (m : method) : M val :=
  match m with
  | m_bool => __bool__ x
  | m_wrap v => wrap x v
  | m_unwrap => unwrap x
  | m_fmap f => fmap x f
  | m_and_fmap f => and_fmap x f
  | m_bind f => bind x f
  | m_and_bind f => and_bind x f
  | m_or_fmap f => or_fmap x f
  | m_or_bind f => or_bind x f
  | m_join other => join x other
  | m_flatten => flatten x
  end.

End Result.

(** ** check_f *)

(** [def check_f(f, *a, **kw)]: a keyword argument named [f] collides with
    the first parameter. *)
Definition names_f (kw : list (string * val)) : bool :=
  existsb (fun kv => String.eqb kv.1 "f") kw.

Definition multiple_values_for_f : exn :=
  Exn TypeError "check_f() got multiple values for argument 'f'".

(** The call [check_f(f, *a, **kw)]: the arguments are bound to the
    parameters, which fails before the body is entered when [kw] names [f];
    then the body runs. *)
Definition check_f (f : callable_star) (a : list val) (kw : list (string * val))
  : M val :=
  if names_f kw then raise multiple_values_for_f
  else
    try_except_Exception
      (let! r := f a kw in instantiate Ok_k r)
      (fun e => instantiate Err_k (VExc e)).

(** ** Reading a result back *)

(** What a value denotes in a store: [Some (k, v)] for an instance of class
    [k] holding [v]. *)
Definition view (h : heap) (x : val) : option (klass * val) :=
  match x with
  | VRef l => (fun o => (cls o, value o)) <$> h !! l
  | _ => None
  end.


(** A callable that leaves the cell [l] of the store as it found it. *)
Definition frames (l : loc) (f : callable) : Prop :=
  forall v h o, h !! l = Some o -> (f v h).2 !! l = Some o.

Definition method_frames (l : loc) (m : Result.method) : Prop :=
  match m with
  | Result.m_fmap f | Result.m_and_fmap f
  | Result.m_bind f | Result.m_and_bind f
  | Result.m_or_fmap f | Result.m_or_bind f => frames l f
  | _ => True
  end.

(** ** Sample exceptions and programs *)

(** Exceptions as the interpreter raises them: the first two derive from
    [BaseException] only, the third from [Exception]. *)
Definition keyboard_interrupt : exn := Exn KeyboardInterrupt "".
Definition system_exit : exn := Exn SystemExit "1".
Definition zero_division : exn := Exn ZeroDivisionError "division by zero".

(** The program [a = Ok(x); b = Ok(y); a.join(b)] (and the same with [Err]),
    run from a given store. *)
Definition join_of_fresh (k : klass) (x y : val) : M val :=
  let! a := instantiate k x in
  let! b := instantiate k y in
  Result.join a b.

(** ** Method chains *)

(** [x.m1(..).m2(..)...]: each call is made on what the call before it
    returned; an exception ends the chain. *)
Fixpoint call_chain (x : val) (ms : list Result.method) : M val :=
  match ms with
  | [] => ret x
  | m :: ms' => let! y := Result.call x m in call_chain y ms'
  end.

(** The methods whose body, in the class [k] of the receiver, is
    [return self]: the success-side ones in [Err], the failure-side ones in
    [Ok]. *)
Definition passes_through (k : klass) (m : Result.method) : bool :=
  match k, m with
  | Err_k, (Result.m_fmap _ | Result.m_and_fmap _
            | Result.m_bind _ | Result.m_and_bind _) => true
  | Ok_k, (Result.m_or_fmap _ | Result.m_or_bind _) => true
  | _, _ => false
  end.

(** A callable that computes from its argument alone and leaves the store
    alone, such as [lambda x: x + 2] or [str]. *)
Definition pure_callable (phi : val -> outcome val) : callable :=
  fun v h => (phi v, h).

(** [lambda x: psi(phi(x))] *)
Definition then_apply (phi psi : val -> outcome val) : val -> outcome val :=
  fun v =>
    match phi v with
    | Returns w => psi w
    | Raises e => Raises e
    end.

(** What a caller can see of a finished call without comparing identities:
    the class and contained value of the instance returned, or the exception
    raised. *)
Definition observed (r : outcome val * heap) : outcome (option (klass * val)) :=
  match r with
  | (Returns x, h') => Returns (view h' x)
  | (Raises e, _) => Raises e
  end.

(** What the guarded application of a pure callable shows: an instance of
    class [k] for a value, an [Err] for a caught exception. *)
Definition lifted (k : klass) (r : outcome val) : outcome (option (klass * val)) :=
  match r with
  | Returns w => Returns (Some (k, w))
  | Raises e =>
      if isinstance_Exception e then Returns (Some (Err_k, VExc e))
      else Raises e
  end.

(** * sumenum.py: an [Enum] whose members are classes

    [Sum] derives from [enum.Enum] and overrides the [_missing_] hook and
    [__call__].  The objects involved are classes, their instances and the
    members of the enumeration; there is no mutable state, and the only
    effect is the [print] of [takes_foo_or_bar]. *)
Module SumEnum.

(** A plain class such as [class Foo: pass], known by its identity: two
    classes are the same class when they are the same object, whatever
    their names.  Plain means no metaclass, no [__eq__], no [__init__]. *)
Abbreviation plain_class := nat.

Inductive pyobj : Set :=
  | PNone
  | PClass (c : plain_class)
  | PInstance (c : plain_class)
  | PMember (enum : nat) (name : string) (v : plain_class).

Inductive error : Set :=
  | KeyError (key : string)
  | ValueError (v : pyobj)
  | AttributeError (attr : string)
  | TypeError (msg : string).

Inductive res (A : Type) : Type :=
  | Value (a : A)
  | Error (e : error).
Arguments Value {A} a.
Arguments Error {A} e.

(** The names that make a member when a class is assigned to them in the
    body of an enumeration.  Names that begin with an underscore (among
    them the dunder, sunder and private names, which [enum] does not turn
    into members) and the names [""] and ["mro"], which it refuses, are
    left out. *)
Definition ordinary (n : string) : bool :=
  negb (String.prefix "_" n)
  && negb (String.eqb n "") && negb (String.eqb n "mro").

Record member_name : Set :=
  MemberName { spelling : string; spelling_ordinary : ordinary spelling = true }.

(** A subclass of [Sum]: its identity and the [NAME = Class] lines of its
    body, in order. *)
Record sum_class : Set :=
  SumClass { sid : nat; body : list (member_name * plain_class) }.

(** [x.name] and [x.value]: attributes of members only. *)
Definition attr_name (x : pyobj) : res string :=
  match x with
  | PMember _ n _ => Value n
  | _ => Error (AttributeError "name")
  end.

Definition attr_value (x : pyobj) : res plain_class :=
  match x with
  | PMember _ _ v => Value v
  | _ => Error (AttributeError "value")
  end.

(** The name under which a class first appears in the body: a later line
    with the same class makes an alias of that member. *)
Fixpoint first_name (v : plain_class) (b : list (member_name * plain_class))
  : option string :=
  match b with
  | [] => None
  | (n, c) :: b' => if Nat.eqb c v then Some (spelling n) else first_name v b'
  end.

(** The member that the line [n = v] of the body stands for. *)
Definition member (E : sum_class) (n : string) (v : plain_class) : pyobj :=
  PMember (sid E) (default n (first_name v (body E))) v.

(** [cls.__members__.items()]: every name of the body, aliases included,
    with the member it stands for, in definition order. *)
Definition __members__ (E : sum_class) : list (string * pyobj) :=
  map (fun nv => (spelling nv.1, member E (spelling nv.1) nv.2)) (body E).

Fixpoint assoc (name : string) (items : list (string * pyobj)) : option pyobj :=
  match items with
  | [] => None
  | (n, m) :: items' => if String.eqb n name then Some m else assoc name items'
  end.

(** [cls[name]] *)
Definition __getitem__ (E : sum_class) (name : string) : res pyobj :=
  match assoc name (__members__ E) with
  | Some m => Value m
  | None => Error (KeyError name)
  end.

(** [Sum.__call__]: [self.value( *args )].  A plain class takes no argument
    and gives a new instance. *)
Definition __call__ (self : pyobj) (args : list pyobj) : res pyobj :=
  match attr_value self with
  | Error e => Error e
  | Value c =>
      match args with
      | [] => Value (PInstance c)
      | _ => Error (TypeError "takes no arguments")
      end
  end.

(** [type(x) is cls], which for an enumeration with members is also
    [isinstance(x, cls)]: such a class cannot be subclassed. *)
Definition is_member_of (E : sum_class) (x : pyobj) : bool :=
  match x with
  | PMember en _ _ => Nat.eqb en (sid E)
  | _ => false
  end.

(** [cls._value2member_map_[value]]: the values of the members are classes,
    so only a class can be found there. *)
Definition by_value (E : sum_class) (value : pyobj) : option pyobj :=
  match value with
  | PClass c =>
      match first_name c (body E) with
      | Some n => Some (PMember (sid E) n c)
      | None => None
      end
  | _ => None
  end.

Definition Foo : plain_class := 0%nat.
Definition Bar : plain_class := 1%nat.
Definition FooOrBar : sum_class :=
  SumClass 0 [(MemberName "FOO" eq_refl, Foo); (MemberName "BAR" eq_refl, Bar)].

(** Code that prints: the lines written so far are threaded through. *)
Definition IO (A : Type) : Type := list string -> res A * list string.

Section ClassTable.

(** The plain classes that a plain class derives from, other than itself:
    the rest of its MRO, [object] apart. *)
Variable bases : plain_class -> list plain_class.

(** [issubclass(c, d)] *)
Definition issubclass (c d : plain_class) : bool :=
  Nat.eqb c d || existsb (Nat.eqb d) (bases c).

(** [isinstance(x, d)] for a plain class [d]: [None], class objects and
    enumeration members are instances of no plain class. *)
Definition isinstance (x : pyobj) (d : plain_class) : bool :=
  match x with
  | PInstance c => issubclass c d
  | _ => false
  end.

(** The loop of [Sum._missing_]; its [else] branch, reached when no member
    matched, is [super()._missing_(value)], which is [None]. *)
Fixpoint missing_loop (E : sum_class) (value : pyobj)
    (items : list (string * pyobj)) : res pyobj :=
  match items with
  | [] => Value PNone
  | (name, val) :: rest =>
      match attr_value val with
      | Error e => Error e
      | Value c =>
          if isinstance value c then __getitem__ E name
          else missing_loop E value rest
      end
  end.

Definition _missing_ (E : sum_class) (value : pyobj) : res pyobj :=
  missing_loop E value (__members__ E).

(** [E(value)], the lookup of [enum.Enum]: a member is returned as it is, a
    value is looked up among the members' values, and what is not found goes
    to [_missing_]; [None] from the hook is a [ValueError]. *)
Definition call (E : sum_class) (value : pyobj) : res pyobj :=
  if is_member_of E value then Value value
  else
    match by_value E value with
    | Some m => Value m
    | None =>
        match body E with
        | [] => Error (TypeError "has no members defined")
        | _ =>
            match _missing_ E value with
            | Error e => Error e
            | Value PNone => Error (ValueError value)
            | Value r =>
                if is_member_of E r then Value r
                else Error (TypeError "error in _missing_")
            end
        end
    end.

Definition takes_foo_or_bar (fb : pyobj) : IO pyobj :=
  fun out =>
    match attr_name fb with
    | Error e => (Error e, out)
    | Value n => (call FooOrBar fb, out ++ [String.append "Argument's tag is " n])
    end.

End ClassTable.

End SumEnum.

(** ** Basic facts about the store *)

Section Store.
Context (h : heap) (l : loc) (o : object).
Hypothesis Hl : h !! l = Some o.

Lemma getattr_value_instance : getattr_value (VRef l) h = (Returns (value o), h).
Proof. unfold getattr_value. now rewrite Hl. Qed.

Lemma dispatch_instance {A} (ok_m err_m : loc -> M A) :
  dispatch (VRef l) ok_m err_m h =
  match cls o with Ok_k => ok_m l h | Err_k => err_m l h end.
Proof. unfold dispatch. now rewrite Hl. Qed.

Lemma isinstance_ResultAbc_instance : isinstance_ResultAbc h (VRef l) = true.
Proof. unfold isinstance_ResultAbc. now rewrite Hl. Qed.

Lemma instantiate_keeps k v : (instantiate k v h).2 !! l = Some o.
Proof.
  unfold instantiate; simpl.
  rewrite lookup_app_l; [exact Hl|].
  apply lookup_lt_Some with o; exact Hl.
Qed.

End Store.

Lemma view_instantiate (k : klass) (v : val) (h : heap) :
  view (instantiate k v h).2 (VRef (length h)) = Some (k, v).
Proof.
  unfold instantiate, view; simpl.
  rewrite lookup_app_r by lia.
  now rewrite Nat.sub_diag.
Qed.

Lemma bindM_returns {A B} (m : M A) (k : A -> M B) h a h' :
  m h = (Returns a, h') -> bindM m k h = k a h'.
Proof. intros E. unfold bindM. now rewrite E. Qed.

(** What each class method does on an instance [Object k v] at [l]. *)

Lemma unwrap_instance h l o :
  h !! l = Some o -> Result.unwrap (VRef l) h = (Returns (value o), h).
Proof.
  intros Hl. unfold Result.unwrap. rewrite (dispatch_instance h l o Hl).
  unfold Ok.unwrap, Err.unwrap.
  destruct (cls o); apply getattr_value_instance; exact Hl.
Qed.

Lemma flatten_instance h l o :
  h !! l = Some o -> Result.flatten (VRef l) h = (Returns (value o), h).
Proof.
  intros Hl. unfold Result.flatten. rewrite (dispatch_instance h l o Hl).
  assert (ResultAbc.flatten (VRef l) h = (Returns (value o), h)) as E.
  { unfold ResultAbc.flatten.
    rewrite (isinstance_ResultAbc_instance h l o Hl).
    apply (unwrap_instance h l o Hl). }
  destruct (cls o); exact E.
Qed.

(** ** unwrap *)

(** C1, as the code has it: [unwrap] returns the contained value of the
    receiver whatever its class; on [Ok v] it returns [v], and on [Err e] it
    returns [e] as an ordinary result.  The store is left untouched. *)
Theorem unwrap_returns_contained_value :
  forall (h : heap) (l : loc) (k : klass) (v : val),
    h !! l = Some (Object k v) ->
    Result.unwrap (VRef l) h = (Returns v, h).
Proof.
  intros h l k v Hl. exact (unwrap_instance h l _ Hl).
Qed.

Lemma unwrap_returns_contained_value_witness :
  Result.unwrap (VRef 0) [Object Ok_k (VInt 7)]
    = (Returns (VInt 7), [Object Ok_k (VInt 7)]) /\
  Result.unwrap (VRef 1) [Object Ok_k (VInt 7); Object Err_k (VStr "boom")]
    = (Returns (VStr "boom"),
       [Object Ok_k (VInt 7); Object Err_k (VStr "boom")]).
Proof.
  split.
  - apply (unwrap_returns_contained_value _ 0%nat Ok_k); reflexivity.
  - apply (unwrap_returns_contained_value _ 1%nat Err_k); reflexivity.
Defined.

(** C1 as stated fails: [unwrap] on an [Err] is no fault, it hands back the
    error value. *)
Lemma unwrap_Err_does_not_raise :
  Result.unwrap (VRef 0) [Object Err_k (VStr "boom")]
    = (Returns (VStr "boom"), [Object Err_k (VStr "boom")]) /\
  ~ (exists e h',
       Result.unwrap (VRef 0) [Object Err_k (VStr "boom")] = (Raises e, h')).
Proof.
  split; [reflexivity|].
  intros (e & h' & E). discriminate E.
Qed.

(** ** flatten *)

(** C2: [flatten] tests [self], which is always an instance, so it always
    unwraps.  On a nested result it returns the inner one, as documented;
    on [Ok(5)] it returns the bare [5], where the docstring (and
    [flatten_documented]) give the receiver itself. *)
Theorem flatten_of_plain_value_is_not_self :
  let h := [Object Ok_k (VInt 5)] in
  Result.flatten (VRef 0) h = (Returns (VInt 5), h) /\
  ResultAbc.flatten_documented (VRef 0) h = (Returns (VRef 0), h) /\
  Result.flatten (VRef 0) h <> (Returns (VRef 0), h) /\
  (let h2 := [Object Ok_k (VInt 1); Object Ok_k (VRef 0)] in
   Result.flatten (VRef 1) h2 = (Returns (VRef 0), h2) /\
   ResultAbc.flatten_documented (VRef 1) h2 = (Returns (VRef 0), h2)).
Proof.
  cbv zeta. repeat split; try reflexivity.
  intros E. discriminate E.
Qed.

(** ** The guarded application shared by [Ok.fmap], [Err.or_fmap], [check_f] *)

(** [try: return K(f(self.value))  except Exception as e: return Err(e)] on
    an instance, by cases on what [f] does. *)
Lemma guarded_apply_instance (k : klass) (h : heap) (l : loc) (o : object)
    (f : callable) :
  h !! l = Some o ->
  try_except_Exception
    (let! v := getattr_value (VRef l) in
     let! w := f v in
     instantiate k w)
    (fun e => instantiate Err_k (VExc e)) h =
  match f (value o) h with
  | (Returns w, h1) => instantiate k w h1
  | (Raises e, h1) =>
      if isinstance_Exception e then instantiate Err_k (VExc e) h1
      else (Raises e, h1)
  end.
Proof.
  intros Hl. unfold try_except_Exception.
  rewrite (bindM_returns _ _ _ _ _ (getattr_value_instance h l o Hl)).
  unfold bindM. destruct (f (value o) h) as [[w|e] h1]; reflexivity.
Qed.

Lemma fmap_Ok_instance h l v f :
  h !! l = Some (Object Ok_k v) ->
  Result.fmap (VRef l) f h =
  match f v h with
  | (Returns w, h1) => instantiate Ok_k w h1
  | (Raises e, h1) =>
      if isinstance_Exception e then instantiate Err_k (VExc e) h1
      else (Raises e, h1)
  end.
Proof.
  intros Hl. unfold Result.fmap. rewrite (dispatch_instance h l _ Hl); simpl.
  exact (guarded_apply_instance Ok_k h l _ f Hl).
Qed.

Lemma or_fmap_Err_instance h l v f :
  h !! l = Some (Object Err_k v) ->
  Result.or_fmap (VRef l) f h =
  match f v h with
  | (Returns w, h1) => instantiate Err_k w h1
  | (Raises e, h1) =>
      if isinstance_Exception e then instantiate Err_k (VExc e) h1
      else (Raises e, h1)
  end.
Proof.
  intros Hl. unfold Result.or_fmap. rewrite (dispatch_instance h l _ Hl); simpl.
  exact (guarded_apply_instance Err_k h l _ f Hl).
Qed.

Lemma passthrough_instance h l o (ok_m err_m : loc -> M val) :
  h !! l = Some o ->
  (cls o = Ok_k -> ok_m l = ret (VRef l)) ->
  (cls o = Err_k -> err_m l = ret (VRef l)) ->
  dispatch (VRef l) ok_m err_m h = (Returns (VRef l), h).
Proof.
  intros Hl Hok Herr. rewrite (dispatch_instance h l o Hl).
  destruct (cls o); [rewrite Hok | rewrite Herr]; reflexivity.
Qed.

(** ** fmap / and_fmap (the spec's map) *)

(** C3, as the code has it: on [Ok v], when [f v] returns [w] the call gives
    a new [Ok w]; when [f v] raises an exception deriving from [Exception]
    the call gives a new [Err] holding that exception; an exception outside
    [Exception] (KeyboardInterrupt, SystemExit, ...) is not caught and leaves
    the call.  On [Err e] the receiver itself comes back, [f] is not run and
    the store is the same.  [and_fmap] is the same method. *)
Theorem fmap_spec :
  forall (h : heap) (l : loc) (f : callable),
    (forall v w h1,
        h !! l = Some (Object Ok_k v) -> f v h = (Returns w, h1) ->
        Result.fmap (VRef l) f h = instantiate Ok_k w h1) /\
    (forall v e h1,
        h !! l = Some (Object Ok_k v) -> f v h = (Raises e, h1) ->
        isinstance_Exception e = true ->
        Result.fmap (VRef l) f h = instantiate Err_k (VExc e) h1) /\
    (forall v e h1,
        h !! l = Some (Object Ok_k v) -> f v h = (Raises e, h1) ->
        isinstance_Exception e = false ->
        Result.fmap (VRef l) f h = (Raises e, h1)) /\
    (forall e,
        h !! l = Some (Object Err_k e) ->
        Result.fmap (VRef l) f h = (Returns (VRef l), h)) /\
    Result.and_fmap (VRef l) f h = Result.fmap (VRef l) f h.
Proof.
  intros h l f. split; [|split; [|split; [|split]]].
  - intros v w h1 Hl Hf.
    rewrite (fmap_Ok_instance h l v f Hl), Hf. reflexivity.
  - intros v e h1 Hl Hf He.
    rewrite (fmap_Ok_instance h l v f Hl), Hf, He. reflexivity.
  - intros v e h1 Hl Hf He.
    rewrite (fmap_Ok_instance h l v f Hl), Hf, He. reflexivity.
  - intros e Hl. apply (passthrough_instance h l _ _ _ Hl); simpl;
      intros E; first [discriminate E | reflexivity].
  - reflexivity.
Qed.

Lemma fmap_spec_witness :
  let h := [Object Ok_k (VInt 1); Object Err_k (VStr "bad")] in
  Result.fmap (VRef 0) (fun _ => ret (VInt 2)) h
    = (Returns (VRef 2), h ++ [Object Ok_k (VInt 2)]) /\
  Result.fmap (VRef 0) (fun _ => raise zero_division) h
    = (Returns (VRef 2), h ++ [Object Err_k (VExc zero_division)]) /\
  Result.fmap (VRef 0) (fun _ => raise keyboard_interrupt) h
    = (Raises keyboard_interrupt, h) /\
  Result.fmap (VRef 1) (fun _ => raise keyboard_interrupt) h
    = (Returns (VRef 1), h).
Proof.
  intros h.
  pose proof (fmap_spec h 0%nat (fun _ => ret (VInt 2))) as (A & _).
  pose proof (fmap_spec h 0%nat (fun _ => raise zero_division)) as (_ & B & _).
  pose proof (fmap_spec h 0%nat (fun _ => raise keyboard_interrupt))
    as (_ & _ & C & _).
  pose proof (fmap_spec h 1%nat (fun _ => raise keyboard_interrupt))
    as (_ & _ & _ & D & _).
  split; [|split; [|split]].
  - exact (A (VInt 1) (VInt 2) h eq_refl eq_refl).
  - exact (B (VInt 1) zero_division h eq_refl eq_refl eq_refl).
  - exact (C (VInt 1) keyboard_interrupt h eq_refl eq_refl eq_refl).
  - exact (D (VStr "bad") eq_refl).
Defined.

(** C3 as stated fails where it says that no exception leaves the call:
    [Ok(1).fmap(f)] with [f] raising [KeyboardInterrupt] returns no [Err],
    the exception goes on to the caller. *)
Lemma fmap_KeyboardInterrupt_escapes :
  let h := [Object Ok_k (VInt 1)] in
  let f : callable := fun _ => raise keyboard_interrupt in
  Result.fmap (VRef 0) f h = (Raises keyboard_interrupt, h) /\
  ~ (exists r h', Result.fmap (VRef 0) f h = (Returns r, h')).
Proof.
  cbv zeta. split; [reflexivity|].
  intros (r & h' & E). discriminate E.
Qed.

(** ** bind / and_bind (the spec's and_then) *)

Lemma bind_Ok_instance h l v f :
  h !! l = Some (Object Ok_k v) -> Result.bind (VRef l) f h = f v h.
Proof.
  intros Hl. unfold Result.bind. rewrite (dispatch_instance h l _ Hl); simpl.
  unfold Ok.bind.
  exact (bindM_returns _ _ _ _ _ (getattr_value_instance h l _ Hl)).
Qed.

Lemma or_bind_Err_instance h l e f :
  h !! l = Some (Object Err_k e) -> Result.or_bind (VRef l) f h = f e h.
Proof.
  intros Hl. unfold Result.or_bind. rewrite (dispatch_instance h l _ Hl); simpl.
  unfold Err.or_bind.
  exact (bindM_returns _ _ _ _ _ (getattr_value_instance h l _ Hl)).
Qed.

(** C4: on [Ok v], [and_bind f] is the very outcome of [f v] (result and
    store, nothing wrapped around it); on [Err e] it is the receiver itself
    with the store untouched, whatever [f] is, so [f] is not run.  [bind]
    is the same method. *)
Theorem and_bind_spec :
  forall (h : heap) (l : loc) (f : callable),
    (forall v, h !! l = Some (Object Ok_k v) ->
               Result.and_bind (VRef l) f h = f v h) /\
    (forall e, h !! l = Some (Object Err_k e) ->
               Result.and_bind (VRef l) f h = (Returns (VRef l), h)) /\
    Result.bind (VRef l) f h = Result.and_bind (VRef l) f h.
Proof.
  intros h l f. split; [|split].
  - intros v Hl. exact (bind_Ok_instance h l v f Hl).
  - intros e Hl. apply (passthrough_instance h l _ _ _ Hl); simpl;
      intros E; first [discriminate E | reflexivity].
  - reflexivity.
Qed.

Lemma and_bind_spec_witness :
  let h := [Object Ok_k (VInt 10); Object Err_k (VStr "neg")] in
  let f : callable := fun x => instantiate Ok_k (VTuple [x; x]) in
  Result.and_bind (VRef 0) f h
    = (Returns (VRef 2), h ++ [Object Ok_k (VTuple [VInt 10; VInt 10])]) /\
  Result.and_bind (VRef 1) (fun _ => raise keyboard_interrupt) h
    = (Returns (VRef 1), h).
Proof.
  intros h f.
  pose proof (and_bind_spec h 0%nat f) as (A & _).
  pose proof (and_bind_spec h 1%nat (fun _ => raise keyboard_interrupt))
    as (_ & B & _).
  split.
  - exact (A (VInt 10) eq_refl).
  - exact (B (VStr "neg") eq_refl).
Defined.

(** ** or_fmap (the spec's map_err) *)

(** C5, as the code has it: on [Err e], when [g e] returns [w] the call
    gives a new [Err w]; when [g e] raises an exception deriving from
    [Exception] it gives a new [Err] holding that exception; an exception
    outside [Exception] is not caught and leaves the call.  On [Ok v] the
    receiver itself comes back and the store is the same.  Hence whenever
    [or_fmap] on an [Err] returns, what it returns is an [Err]. *)
Theorem or_fmap_spec :
  forall (h : heap) (l : loc) (g : callable),
    (forall e w h1,
        h !! l = Some (Object Err_k e) -> g e h = (Returns w, h1) ->
        Result.or_fmap (VRef l) g h = instantiate Err_k w h1) /\
    (forall e x h1,
        h !! l = Some (Object Err_k e) -> g e h = (Raises x, h1) ->
        isinstance_Exception x = true ->
        Result.or_fmap (VRef l) g h = instantiate Err_k (VExc x) h1) /\
    (forall e x h1,
        h !! l = Some (Object Err_k e) -> g e h = (Raises x, h1) ->
        isinstance_Exception x = false ->
        Result.or_fmap (VRef l) g h = (Raises x, h1)) /\
    (forall v,
        h !! l = Some (Object Ok_k v) ->
        Result.or_fmap (VRef l) g h = (Returns (VRef l), h)) /\
    (forall e r h',
        h !! l = Some (Object Err_k e) ->
        Result.or_fmap (VRef l) g h = (Returns r, h') ->
        exists w, view h' r = Some (Err_k, w)).
Proof.
  intros h l g. split; [|split; [|split; [|split]]].
  - intros e w h1 Hl Hg.
    rewrite (or_fmap_Err_instance h l e g Hl), Hg. reflexivity.
  - intros e x h1 Hl Hg Hx.
    rewrite (or_fmap_Err_instance h l e g Hl), Hg, Hx. reflexivity.
  - intros e x h1 Hl Hg Hx.
    rewrite (or_fmap_Err_instance h l e g Hl), Hg, Hx. reflexivity.
  - intros v Hl. apply (passthrough_instance h l _ _ _ Hl); simpl;
      intros E; first [discriminate E | reflexivity].
  - intros e r h' Hl. rewrite (or_fmap_Err_instance h l e g Hl).
    destruct (g e h) as [[w|x] h1].
    + intros E. injection E as <- <-. exists w. apply view_instantiate.
    + destruct (isinstance_Exception x); intros E; [|discriminate E].
      injection E as <- <-. exists (VExc x). apply view_instantiate.
Qed.

Lemma or_fmap_spec_witness :
  let h := [Object Ok_k (VInt 1); Object Err_k (VStr "bad")] in
  Result.or_fmap (VRef 1) (fun _ => ret (VInt 2)) h
    = (Returns (VRef 2), h ++ [Object Err_k (VInt 2)]) /\
  Result.or_fmap (VRef 1) (fun _ => raise zero_division) h
    = (Returns (VRef 2), h ++ [Object Err_k (VExc zero_division)]) /\
  Result.or_fmap (VRef 1) (fun _ => raise system_exit) h
    = (Raises system_exit, h) /\
  Result.or_fmap (VRef 0) (fun _ => raise system_exit) h
    = (Returns (VRef 0), h) /\
  (exists w, view (h ++ [Object Err_k (VInt 2)]) (VRef 2) = Some (Err_k, w)).
Proof.
  intros h.
  pose proof (or_fmap_spec h 1%nat (fun _ => ret (VInt 2)))
    as (A & _ & _ & _ & E).
  pose proof (or_fmap_spec h 1%nat (fun _ => raise zero_division))
    as (_ & B & _).
  pose proof (or_fmap_spec h 1%nat (fun _ => raise system_exit))
    as (_ & _ & C & _).
  pose proof (or_fmap_spec h 0%nat (fun _ => raise system_exit))
    as (_ & _ & _ & D & _).
  split; [|split; [|split; [|split]]].
  - exact (A (VStr "bad") (VInt 2) h eq_refl eq_refl).
  - exact (B (VStr "bad") zero_division h eq_refl eq_refl eq_refl).
  - exact (C (VStr "bad") system_exit h eq_refl eq_refl eq_refl).
  - exact (D (VInt 1) eq_refl).
  - exact (E (VStr "bad") (VRef 2) (h ++ [Object Err_k (VInt 2)])
             eq_refl eq_refl).
Defined.

(** C5 as stated fails where it says that whatever [g] raises is captured:
    [Err("bad").or_fmap(g)] with [g] raising [SystemExit] returns no [Err],
    the exception goes on to the caller. *)
Lemma or_fmap_SystemExit_escapes :
  let h := [Object Err_k (VStr "bad")] in
  let g : callable := fun _ => raise system_exit in
  Result.or_fmap (VRef 0) g h = (Raises system_exit, h) /\
  ~ (exists r h', Result.or_fmap (VRef 0) g h = (Returns r, h')).
Proof.
  cbv zeta. split; [reflexivity|].
  intros (r & h' & E). discriminate E.
Qed.

(** ** or_bind (the spec's or_else) *)

(** C6: on [Err e], [or_bind k] is the very outcome of [k e]; with [k]
    building an [Ok] the call turns the failure into a success; on [Ok v]
    it is the receiver itself with the store untouched, whatever [k] is. *)
Theorem or_bind_spec :
  forall (h : heap) (l : loc) (k : callable),
    (forall e, h !! l = Some (Object Err_k e) ->
               Result.or_bind (VRef l) k h = k e h) /\
    (forall e, h !! l = Some (Object Err_k e) ->
               exists r h',
                 Result.or_bind (VRef l) (instantiate Ok_k) h = (Returns r, h')
                 /\ view h' r = Some (Ok_k, e)) /\
    (forall v, h !! l = Some (Object Ok_k v) ->
               Result.or_bind (VRef l) k h = (Returns (VRef l), h)).
Proof.
  intros h l k. split; [|split].
  - intros e Hl. exact (or_bind_Err_instance h l e k Hl).
  - intros e Hl. exists (VRef (length h)), (h ++ [Object Ok_k e]). split.
    + exact (or_bind_Err_instance h l e _ Hl).
    + apply (view_instantiate Ok_k e h).
  - intros v Hl. apply (passthrough_instance h l _ _ _ Hl); simpl;
      intros E; first [discriminate E | reflexivity].
Qed.

Lemma or_bind_spec_witness :
  let h := [Object Ok_k (VInt 1); Object Err_k (VStr "bad")] in
  Result.or_bind (VRef 1) (fun e => instantiate Ok_k (VTuple [e])) h
    = (Returns (VRef 2), h ++ [Object Ok_k (VTuple [VStr "bad"])]) /\
  (exists r h',
      Result.or_bind (VRef 1) (instantiate Ok_k) h = (Returns r, h')
      /\ view h' r = Some (Ok_k, VStr "bad")) /\
  Result.or_bind (VRef 0) (fun _ => raise keyboard_interrupt) h
    = (Returns (VRef 0), h).
Proof.
  intros h.
  pose proof (or_bind_spec h 1%nat (fun e => instantiate Ok_k (VTuple [e])))
    as (A & B & _).
  pose proof (or_bind_spec h 0%nat (fun _ => raise keyboard_interrupt))
    as (_ & _ & C).
  split; [|split].
  - exact (A (VStr "bad") eq_refl).
  - exact (B (VStr "bad") eq_refl).
  - exact (C (VInt 1) eq_refl).
Defined.

(** ** join *)

Lemma join_instance h l1 l2 o1 o2 :
  h !! l1 = Some o1 -> h !! l2 = Some o2 ->
  Result.join (VRef l1) (VRef l2) h
    = instantiate (cls o1) (VTuple [value o1; value o2]) h.
Proof.
  intros H1 H2. unfold Result.join. rewrite (dispatch_instance h l1 o1 H1).
  unfold Ok.join, Err.join.
  destruct (cls o1);
    rewrite (bindM_returns _ _ _ _ _ (getattr_value_instance h l1 o1 H1));
    rewrite (bindM_returns _ _ _ _ _ (getattr_value_instance h l2 o2 H2));
    reflexivity.
Qed.

(** C7: joining two [Ok] gives a new [Ok] holding the pair of their values,
    joining two [Err] gives a new [Err] holding the pair of their errors;
    [Ok(1).join(Ok(2))] is [Ok((1, 2))] and [Err("a").join(Err("b"))] is
    [Err(("a", "b"))]. *)
Theorem join_same_variant :
  forall (h : heap) (l1 l2 : loc),
    (forall v1 v2,
        h !! l1 = Some (Object Ok_k v1) -> h !! l2 = Some (Object Ok_k v2) ->
        Result.join (VRef l1) (VRef l2) h
          = instantiate Ok_k (VTuple [v1; v2]) h) /\
    (forall e1 e2,
        h !! l1 = Some (Object Err_k e1) -> h !! l2 = Some (Object Err_k e2) ->
        Result.join (VRef l1) (VRef l2) h
          = instantiate Err_k (VTuple [e1; e2]) h) /\
    join_of_fresh Ok_k (VInt 1) (VInt 2) []
      = (Returns (VRef 2),
         [Object Ok_k (VInt 1); Object Ok_k (VInt 2);
          Object Ok_k (VTuple [VInt 1; VInt 2])]) /\
    join_of_fresh Err_k (VStr "a") (VStr "b") []
      = (Returns (VRef 2),
         [Object Err_k (VStr "a"); Object Err_k (VStr "b");
          Object Err_k (VTuple [VStr "a"; VStr "b"])]).
Proof.
  intros h l1 l2. split; [|split; [|split]].
  - intros v1 v2 H1 H2. exact (join_instance h l1 l2 _ _ H1 H2).
  - intros e1 e2 H1 H2. exact (join_instance h l1 l2 _ _ H1 H2).
  - reflexivity.
  - reflexivity.
Qed.

Lemma join_same_variant_witness :
  let h := [Object Ok_k (VInt 1); Object Err_k (VStr "a");
            Object Ok_k (VInt 2); Object Err_k (VStr "b")] in
  Result.join (VRef 0) (VRef 2) h
    = (Returns (VRef 4), h ++ [Object Ok_k (VTuple [VInt 1; VInt 2])]) /\
  Result.join (VRef 1) (VRef 3) h
    = (Returns (VRef 4), h ++ [Object Err_k (VTuple [VStr "a"; VStr "b"])]).
Proof.
  intros h.
  pose proof (join_same_variant h 0%nat 2%nat) as (A & _).
  pose proof (join_same_variant h 1%nat 3%nat) as (_ & B & _).
  split.
  - exact (A (VInt 1) (VInt 2) eq_refl eq_refl).
  - exact (B (VStr "a") (VStr "b") eq_refl eq_refl).
Defined.

(** C10: the class of the receiver alone decides the class of a join; the
    argument may be of either class, its contained value is paired with the
    receiver's, and the call returns a new instance: it neither raises nor
    hands back one of the operands. *)
Theorem join_mixed_variant :
  forall (h : heap) (l1 l2 : loc) (k1 k2 : klass) (v1 v2 : val),
    h !! l1 = Some (Object k1 v1) ->
    h !! l2 = Some (Object k2 v2) ->
    Result.join (VRef l1) (VRef l2) h
      = (Returns (VRef (length h)), h ++ [Object k1 (VTuple [v1; v2])]).
Proof.
  intros h l1 l2 k1 k2 v1 v2 H1 H2.
  exact (join_instance h l1 l2 _ _ H1 H2).
Qed.

Lemma join_mixed_variant_witness :
  let h := [Object Ok_k (VInt 1); Object Err_k (VStr "a")] in
  Result.join (VRef 0) (VRef 1) h
    = (Returns (VRef 2), h ++ [Object Ok_k (VTuple [VInt 1; VStr "a"])]) /\
  Result.join (VRef 1) (VRef 0) h
    = (Returns (VRef 2), h ++ [Object Err_k (VTuple [VStr "a"; VInt 1])]).
Proof.
  intros h. split.
  - exact (join_mixed_variant h 0%nat 1%nat Ok_k Err_k (VInt 1) (VStr "a")
             eq_refl eq_refl).
  - exact (join_mixed_variant h 1%nat 0%nat Err_k Ok_k (VStr "a") (VInt 1)
             eq_refl eq_refl).
Defined.

(** ** check_f (the spec's lift) *)

Lemma check_f_cases (f : callable_star) a kw (h : heap) :
  names_f kw = false ->
  check_f f a kw h =
  match f a kw h with
  | (Returns r, h1) => instantiate Ok_k r h1
  | (Raises e, h1) =>
      if isinstance_Exception e then instantiate Err_k (VExc e) h1
      else (Raises e, h1)
  end.
Proof.
  intros Hkw. unfold check_f. rewrite Hkw.
  unfold try_except_Exception, bindM.
  destruct (f a kw h) as [[r|e] h1]; reflexivity.
Qed.

(** C8, as the code has it, for a call whose keyword arguments do not name
    [f]: when [f] applied to [a] and [kw] returns [r], [check_f] gives a new
    [Ok r]; when it raises an exception deriving from [Exception],
    [check_f] gives a new [Err] holding exactly that exception and nothing
    is raised; an exception outside [Exception] is not caught and leaves
    [check_f].  A keyword argument named [f] makes the call itself raise
    [TypeError], and [f] is not run.  [check_f(lambda: 5)] is [Ok(5)], and
    a callable raising [ZeroDivisionError] gives an [Err] holding it. *)
Theorem check_f_spec :
  forall (h : heap) (f : callable_star) (a : list val)
         (kw : list (string * val)),
    (forall r h1,
        names_f kw = false ->
        f a kw h = (Returns r, h1) ->
        check_f f a kw h = instantiate Ok_k r h1) /\
    (forall e h1,
        names_f kw = false ->
        f a kw h = (Raises e, h1) -> isinstance_Exception e = true ->
        check_f f a kw h = instantiate Err_k (VExc e) h1) /\
    (forall e h1,
        names_f kw = false ->
        f a kw h = (Raises e, h1) -> isinstance_Exception e = false ->
        check_f f a kw h = (Raises e, h1)) /\
    (names_f kw = true ->
     check_f f a kw h = (Raises multiple_values_for_f, h)) /\
    check_f (fun _ _ => ret (VInt 5)) [] [] []
      = (Returns (VRef 0), [Object Ok_k (VInt 5)]) /\
    check_f (fun _ _ => raise zero_division) [] [] []
      = (Returns (VRef 0), [Object Err_k (VExc zero_division)]).
Proof.
  intros h f a kw. split; [|split; [|split; [|split; [|split]]]].
  - intros r h1 Hkw Hf. rewrite (check_f_cases f a kw h Hkw), Hf. reflexivity.
  - intros e h1 Hkw Hf He.
    rewrite (check_f_cases f a kw h Hkw), Hf, He. reflexivity.
  - intros e h1 Hkw Hf He.
    rewrite (check_f_cases f a kw h Hkw), Hf, He. reflexivity.
  - intros Hkw. unfold check_f. rewrite Hkw. reflexivity.
  - reflexivity.
  - reflexivity.
Qed.

Lemma check_f_spec_witness :
  let h := [Object Ok_k (VInt 1)] in
  let f : callable_star :=
    fun a _ => match a with
               | [VInt 0] => raise zero_division
               | [VInt z] => ret (VInt (100 / z))
               | _ => raise system_exit
               end in
  check_f f [VInt 4] [("g", VNone)] h
    = (Returns (VRef 1), h ++ [Object Ok_k (VInt 25)]) /\
  check_f f [VInt 0] [] h
    = (Returns (VRef 1), h ++ [Object Err_k (VExc zero_division)]) /\
  check_f f [] [] h = (Raises system_exit, h) /\
  check_f f [VInt 4] [("f", VInt 1)] h = (Raises multiple_values_for_f, h).
Proof.
  intros h f.
  pose proof (check_f_spec h f [VInt 4] [("g", VNone)]) as (A & _).
  pose proof (check_f_spec h f [VInt 0] []) as (_ & B & _).
  pose proof (check_f_spec h f [] []) as (_ & _ & C & _).
  pose proof (check_f_spec h f [VInt 4] [("f", VInt 1)]) as (_ & _ & _ & D & _).
  split; [|split; [|split]].
  - exact (A (VInt 25) h eq_refl eq_refl).
  - exact (B zero_division h eq_refl eq_refl eq_refl).
  - exact (C system_exit h eq_refl eq_refl eq_refl).
  - exact (D eq_refl).
Defined.

(** C8 as stated fails where it says that any raised error is captured:
    [check_f(f)] with [f] raising [KeyboardInterrupt] returns no [Err], the
    exception goes on to the caller. *)
Lemma check_f_KeyboardInterrupt_escapes :
  let f : callable_star := fun _ _ => raise keyboard_interrupt in
  check_f f [] [] [] = (Raises keyboard_interrupt, []) /\
  ~ (exists r h', check_f f [] [] [] = (Returns r, h')).
Proof.
  cbv zeta. split; [reflexivity|].
  intros (r & h' & E). discriminate E.
Qed.

(** ** The class of an instance never changes *)

Section Receiver.
Context (h : heap) (l : loc) (o : object).
Hypothesis Hl : h !! l = Some o.

Lemma applied_keeps (f : callable) (v : val) :
  frames l f -> (f v h).2 !! l = Some o.
Proof. intros Hf. exact (Hf v h o Hl). Qed.

Lemma guarded_apply_keeps (k : klass) (f : callable) :
  frames l f ->
  (try_except_Exception
     (let! v := getattr_value (VRef l) in
      let! w := f v in
      instantiate k w)
     (fun e => instantiate Err_k (VExc e)) h).2 !! l = Some o.
Proof.
  intros Hf. rewrite (guarded_apply_instance k h l o f Hl).
  pose proof (applied_keeps f (value o) Hf) as Hk.
  destruct (f (value o) h) as [[w|e] h1]; simpl in Hk.
  - exact (instantiate_keeps h1 l o Hk k w).
  - destruct (isinstance_Exception e);
      [exact (instantiate_keeps h1 l o Hk Err_k (VExc e)) | exact Hk].
Qed.

Lemma bound_apply_keeps (f : callable) :
  frames l f ->
  ((let! v := getattr_value (VRef l) in f v) h).2 !! l = Some o.
Proof.
  intros Hf.
  rewrite (bindM_returns _ _ _ _ _ (getattr_value_instance h l o Hl)).
  exact (applied_keeps f (value o) Hf).
Qed.

Lemma join_keeps (k : klass) (other : val) :
  ((let! a := getattr_value (VRef l) in
    let! b := getattr_value other in
    instantiate k (VTuple [a; b])) h).2 !! l = Some o.
Proof.
  rewrite (bindM_returns _ _ _ _ _ (getattr_value_instance h l o Hl)).
  unfold bindM.
  destruct (getattr_value other h) as [[b|e] h1] eqn:E.
  - assert (h1 = h) as ->.
    { unfold getattr_value in E. destruct other; try discriminate E.
      destruct (h !! l0); injection E as _ <-; reflexivity. }
    exact (instantiate_keeps h l o Hl k _).
  - assert (h1 = h) as ->; [|exact Hl].
    unfold getattr_value in E.
    destruct other; try (injection E as _ <-; reflexivity).
    destruct (h !! l0); injection E as _ <-; reflexivity.
Qed.

Lemma wrap_instance (v : val) :
  Result.wrap (VRef l) v h
    = (Returns (VRef l), alter (fun o0 => Object (cls o0) v) l h).
Proof.
  unfold Result.wrap. rewrite (dispatch_instance h l o Hl).
  destruct (cls o); reflexivity.
Qed.

End Receiver.

(** C9: no method called on an instance changes its class.  [wrap]
    overwrites the slot of the receiver in place and returns the receiver
    itself, still of the class it had; every other method leaves both the
    class and the contained value of the receiver as they were (the
    callable handed to a method being one that does not itself write to the
    receiver). *)
Theorem variant_is_immutable :
  forall (m : Result.method) (h : heap) (l : loc) (o : object),
    h !! l = Some o ->
    method_frames l m ->
    exists o',
      (Result.call (VRef l) m h).2 !! l = Some o' /\
      cls o' = cls o /\
      match m with
      | Result.m_wrap v =>
          value o' = v /\ (Result.call (VRef l) m h).1 = Returns (VRef l)
      | _ => value o' = value o
      end.
Proof.
  intros m h l o Hl Hm.
  destruct m as [|v| |f|f|f|f|f|f|other|].
  2: { exists (Object (cls o) v). unfold Result.call.
       rewrite (wrap_instance h l o Hl v). simpl.
       rewrite list_lookup_alter_eq, Hl. auto. }
  all: exists o; split; [|auto].
  all: simpl in Hm; unfold Result.call.
  - unfold Result.__bool__. rewrite (dispatch_instance h l o Hl).
    destruct (cls o); exact Hl.
  - rewrite (unwrap_instance h l o Hl). exact Hl.
  - unfold Result.fmap. rewrite (dispatch_instance h l o Hl).
    destruct (cls o); [exact (guarded_apply_keeps h l o Hl Ok_k f Hm) | exact Hl].
  - unfold Result.and_fmap. rewrite (dispatch_instance h l o Hl).
    destruct (cls o); [exact (guarded_apply_keeps h l o Hl Ok_k f Hm) | exact Hl].
  - unfold Result.bind. rewrite (dispatch_instance h l o Hl).
    destruct (cls o); [exact (bound_apply_keeps h l o Hl f Hm) | exact Hl].
  - unfold Result.and_bind. rewrite (dispatch_instance h l o Hl).
    destruct (cls o); [exact (bound_apply_keeps h l o Hl f Hm) | exact Hl].
  - unfold Result.or_fmap. rewrite (dispatch_instance h l o Hl).
    destruct (cls o); [exact Hl | exact (guarded_apply_keeps h l o Hl Err_k f Hm)].
  - unfold Result.or_bind. rewrite (dispatch_instance h l o Hl).
    destruct (cls o); [exact Hl | exact (bound_apply_keeps h l o Hl f Hm)].
  - unfold Result.join. rewrite (dispatch_instance h l o Hl).
    destruct (cls o); apply (join_keeps h l o Hl).
  - rewrite (flatten_instance h l o Hl). exact Hl.
Qed.

Lemma variant_is_immutable_witness :
  let h := [Object Ok_k (VInt 1); Object Err_k (VStr "bad")] in
  (exists o',
      (Result.call (VRef 1) (Result.m_wrap (VInt 9)) h).2 !! 1%nat = Some o' /\
      cls o' = Err_k /\
      value o' = VInt 9 /\
      (Result.call (VRef 1) (Result.m_wrap (VInt 9)) h).1 = Returns (VRef 1)) /\
  (exists o',
      (Result.call (VRef 0) (Result.m_fmap (instantiate Err_k)) h).2 !! 0%nat
        = Some o' /\
      cls o' = Ok_k /\ value o' = VInt 1).
Proof.
  intros h. split.
  - apply (variant_is_immutable (Result.m_wrap (VInt 9)) h 1%nat
             (Object Err_k (VStr "bad")) eq_refl I).
  - refine (variant_is_immutable (Result.m_fmap (instantiate Err_k)) h 0%nat
              (Object Ok_k (VInt 1)) eq_refl _).
    intros v h0 o0 H0. exact (instantiate_keeps h0 0%nat o0 H0 Err_k v).
Defined.

(** * Further properties of the two classes *)

(** ** Truthiness *)

(** X1: [bool(r)] is [True] exactly when [r] is an [Ok] and [False] exactly
    when it is an [Err]; the test raises nothing and leaves the store as it
    was. *)
Theorem bool_tells_the_class :
  forall (h : heap) (l : loc) (o : object) (b : bool),
    h !! l = Some o ->
    (Result.__bool__ (VRef l) h = (Returns (VBool b), h)
     <-> cls o = (if b then Ok_k else Err_k)).
Proof.
  intros h l o b Hl. unfold Result.__bool__.
  rewrite (dispatch_instance h l o Hl).
  unfold Ok.__bool__, Err.__bool__, ret.
  destruct (cls o), b; split; intros E;
    first [reflexivity | discriminate E | (injection E as E; discriminate E)].
Qed.

Lemma bool_tells_the_class_witness :
  let h := [Object Ok_k (VInt 1); Object Err_k (VStr "bad")] in
  Result.__bool__ (VRef 0) h = (Returns (VBool true), h) /\
  Result.__bool__ (VRef 1) h = (Returns (VBool false), h).
Proof.
  intros h. split.
  - exact (proj2 (bool_tells_the_class h 0%nat (Object Ok_k (VInt 1)) true
                    eq_refl) eq_refl).
  - exact (proj2 (bool_tells_the_class h 1%nat (Object Err_k (VStr "bad")) false
                    eq_refl) eq_refl).
Defined.

(** ** wrap *)

Lemma wrap_then_unwrap_instance h l o v :
  h !! l = Some o ->
  (let! r := Result.wrap (VRef l) v in Result.unwrap r) h
    = (Returns v, alter (fun o0 => Object (cls o0) v) l h).
Proof.
  intros Hl.
  rewrite (bindM_returns _ _ _ _ _ (wrap_instance h l o Hl v)).
  apply (unwrap_instance _ l (Object (cls o) v)).
  rewrite list_lookup_alter_eq, Hl. reflexivity.
Qed.

(** X2: [r.wrap(v).unwrap()] gives [v] back.  The call allocates nothing,
    the receiver keeps its class, and no other instance is touched. *)
Theorem wrap_then_unwrap :
  forall (h : heap) (l : loc) (o : object) (v : val),
    h !! l = Some o ->
    exists h',
      (let! r := Result.wrap (VRef l) v in Result.unwrap r) h = (Returns v, h') /\
      h' !! l = Some (Object (cls o) v) /\
      length h' = length h /\
      (forall l', l' <> l -> h' !! l' = h !! l').
Proof.
  intros h l o v Hl. eexists. split; [exact (wrap_then_unwrap_instance h l o v Hl)|].
  split; [|split].
  - rewrite list_lookup_alter_eq, Hl. reflexivity.
  - apply length_alter.
  - intros l' Hne. apply list_lookup_alter_ne. congruence.
Qed.

Lemma wrap_then_unwrap_witness :
  exists h',
    (let! r := Result.wrap (VRef 1) (VInt 9) in Result.unwrap r)
      [Object Ok_k (VInt 1); Object Err_k (VStr "bad")] = (Returns (VInt 9), h') /\
    h' !! 1%nat = Some (Object Err_k (VInt 9)) /\
    length h' = 2%nat /\
    (forall l', l' <> 1%nat ->
                h' !! l' = [Object Ok_k (VInt 1); Object Err_k (VStr "bad")] !! l').
Proof.
  exact (wrap_then_unwrap [Object Ok_k (VInt 1); Object Err_k (VStr "bad")]
           1%nat (Object Err_k (VStr "bad")) (VInt 9) eq_refl).
Defined.

(** ** Pass-through returns the receiver itself *)

Lemma call_passes_through h l o m :
  h !! l = Some o -> passes_through (cls o) m = true ->
  Result.call (VRef l) m h = (Returns (VRef l), h).
Proof.
  intros Hl Hp.
  destruct m; destruct (cls o) eqn:Ek; simpl in Hp; try discriminate Hp;
    unfold Result.call;
    apply (passthrough_instance h l o _ _ Hl);
    intros E; first [congruence | reflexivity].
Qed.

(** X3: what a pass-through method returns is the receiver, not a copy: a
    [wrap] on the returned object is seen through the receiver.  So
    [e2 = e.fmap(f); e2.wrap(x); e.unwrap()] gives [x] when [e] is an [Err],
    and likewise for [bind] on an [Err] and [or_fmap], [or_bind] on an
    [Ok]. *)
Theorem passthrough_result_is_the_receiver :
  forall (h : heap) (l : loc) (o : object) (m : Result.method) (x : val),
    h !! l = Some o ->
    passes_through (cls o) m = true ->
    exists h',
      (let! r := Result.call (VRef l) m in
       let! _ := Result.wrap r x in
       Result.unwrap (VRef l)) h = (Returns x, h') /\
      h' !! l = Some (Object (cls o) x).
Proof.
  intros h l o m x Hl Hp. eexists.
  rewrite (bindM_returns _ _ _ _ _ (call_passes_through h l o m Hl Hp)).
  rewrite (bindM_returns _ _ _ _ _ (wrap_instance h l o Hl x)).
  assert (alter (fun o0 => Object (cls o0) x) l h !! l
          = Some (Object (cls o) x)) as Hl'.
  { rewrite list_lookup_alter_eq, Hl. reflexivity. }
  split; [exact (unwrap_instance _ l _ Hl') | exact Hl'].
Qed.

Lemma passthrough_result_is_the_receiver_witness :
  exists h',
    (let! r := Result.call (VRef 0)
                 (Result.m_fmap (fun _ => raise keyboard_interrupt)) in
     let! _ := Result.wrap r (VInt 9) in
     Result.unwrap (VRef 0)) [Object Err_k (VStr "bad")]
      = (Returns (VInt 9), h') /\
    h' !! 0%nat = Some (Object Err_k (VInt 9)).
Proof.
  exact (passthrough_result_is_the_receiver [Object Err_k (VStr "bad")] 0%nat
           (Object Err_k (VStr "bad"))
           (Result.m_fmap (fun _ => raise keyboard_interrupt)) (VInt 9)
           eq_refl eq_refl).
Defined.

(** X4: a chain of success-side calls ([fmap], [and_fmap], [bind],
    [and_bind]) of any length made on an [Err] ends with that same [Err]:
    none of the callables is run and the store is not touched.  The same
    holds for a chain of [or_fmap] / [or_bind] calls made on an [Ok]. *)
Theorem chain_short_circuits :
  forall (ms : list Result.method) (h : heap) (l : loc) (o : object),
    h !! l = Some o ->
    Forall (fun m => passes_through (cls o) m = true) ms ->
    call_chain (VRef l) ms h = (Returns (VRef l), h).
Proof.
  induction ms as [|m ms IH]; intros h l o Hl Hall.
  - reflexivity.
  - apply Forall_cons in Hall as [Hm Hms]. simpl.
    rewrite (bindM_returns _ _ _ _ _ (call_passes_through h l o m Hl Hm)).
    exact (IH h l o Hl Hms).
Qed.

Lemma chain_short_circuits_witness :
  let h := [Object Err_k (VStr "bad")] in
  call_chain (VRef 0)
    [Result.m_and_fmap (fun _ => raise keyboard_interrupt);
     Result.m_bind (instantiate Ok_k);
     Result.m_fmap (fun _ => ret VNone)] h
  = (Returns (VRef 0), h).
Proof.
  intros h.
  apply (chain_short_circuits _ h 0%nat (Object Err_k (VStr "bad")) eq_refl).
  repeat constructor.
Defined.

(** ** Instances other than the receiver *)

Section Bystander.
Context (h : heap) (l : loc) (o : object) (l' : loc) (o' : object).
Hypothesis Hl : h !! l = Some o.
Hypothesis Hl' : h !! l' = Some o'.

Lemma guarded_apply_keeps_other (k : klass) (f : callable) :
  frames l' f ->
  (try_except_Exception
     (let! v := getattr_value (VRef l) in
      let! w := f v in
      instantiate k w)
     (fun e => instantiate Err_k (VExc e)) h).2 !! l' = Some o'.
Proof.
  intros Hf. rewrite (guarded_apply_instance k h l o f Hl).
  pose proof (Hf (value o) h o' Hl') as Hk.
  destruct (f (value o) h) as [[w|e] h1]; simpl in Hk.
  - exact (instantiate_keeps h1 l' o' Hk k w).
  - destruct (isinstance_Exception e);
      [exact (instantiate_keeps h1 l' o' Hk Err_k (VExc e)) | exact Hk].
Qed.

Lemma bound_apply_keeps_other (f : callable) :
  frames l' f ->
  ((let! v := getattr_value (VRef l) in f v) h).2 !! l' = Some o'.
Proof.
  intros Hf.
  rewrite (bindM_returns _ _ _ _ _ (getattr_value_instance h l o Hl)).
  exact (Hf (value o) h o' Hl').
Qed.

Lemma getattr_value_store (x : val) : (getattr_value x h).2 = h.
Proof.
  unfold getattr_value. destruct x; try reflexivity.
  destruct (h !! l0); reflexivity.
Qed.

Lemma join_keeps_other (k : klass) (other : val) :
  ((let! a := getattr_value (VRef l) in
    let! b := getattr_value other in
    instantiate k (VTuple [a; b])) h).2 !! l' = Some o'.
Proof.
  rewrite (bindM_returns _ _ _ _ _ (getattr_value_instance h l o Hl)).
  unfold bindM. pose proof (getattr_value_store other) as Hs.
  destruct (getattr_value other h) as [[b|e] h1]; simpl in Hs; subst h1.
  - exact (instantiate_keeps h l' o' Hl' k _).
  - exact Hl'.
Qed.

End Bystander.

(** X5: a method call writes to no instance but its receiver: whatever
    method is called on [l], any other instance [l'] has the same class and
    the same contained value afterwards (the callable handed to the method
    being one that does not itself write to [l']).  In particular [join]
    leaves its argument as it was, and [wrap] changes the receiver only. *)
Theorem other_instances_are_untouched :
  forall (m : Result.method) (h : heap) (l l' : loc) (o o' : object),
    h !! l = Some o ->
    h !! l' = Some o' ->
    l' <> l ->
    method_frames l' m ->
    (Result.call (VRef l) m h).2 !! l' = Some o'.
Proof.
  intros m h l l' o o' Hl Hl' Hne Hm.
  destruct m as [|v| |f|f|f|f|f|f|other|]; simpl in Hm; unfold Result.call.
  - unfold Result.__bool__. rewrite (dispatch_instance h l o Hl).
    destruct (cls o); exact Hl'.
  - rewrite (wrap_instance h l o Hl v). simpl.
    rewrite list_lookup_alter_ne by congruence. exact Hl'.
  - rewrite (unwrap_instance h l o Hl). exact Hl'.
  - unfold Result.fmap. rewrite (dispatch_instance h l o Hl).
    destruct (cls o);
      [exact (guarded_apply_keeps_other h l o l' o' Hl Hl' Ok_k f Hm) | exact Hl'].
  - unfold Result.and_fmap. rewrite (dispatch_instance h l o Hl).
    destruct (cls o);
      [exact (guarded_apply_keeps_other h l o l' o' Hl Hl' Ok_k f Hm) | exact Hl'].
  - unfold Result.bind. rewrite (dispatch_instance h l o Hl).
    destruct (cls o);
      [exact (bound_apply_keeps_other h l o l' o' Hl Hl' f Hm) | exact Hl'].
  - unfold Result.and_bind. rewrite (dispatch_instance h l o Hl).
    destruct (cls o);
      [exact (bound_apply_keeps_other h l o l' o' Hl Hl' f Hm) | exact Hl'].
  - unfold Result.or_fmap. rewrite (dispatch_instance h l o Hl).
    destruct (cls o);
      [exact Hl' | exact (guarded_apply_keeps_other h l o l' o' Hl Hl' Err_k f Hm)].
  - unfold Result.or_bind. rewrite (dispatch_instance h l o Hl).
    destruct (cls o);
      [exact Hl' | exact (bound_apply_keeps_other h l o l' o' Hl Hl' f Hm)].
  - unfold Result.join. rewrite (dispatch_instance h l o Hl).
    destruct (cls o); apply (join_keeps_other h l o l' o' Hl Hl').
  - rewrite (flatten_instance h l o Hl). exact Hl'.
Qed.

Lemma other_instances_are_untouched_witness :
  let h := [Object Ok_k (VInt 1); Object Err_k (VStr "bad")] in
  (Result.call (VRef 0) (Result.m_join (VRef 1)) h).2 !! 1%nat
    = Some (Object Err_k (VStr "bad")) /\
  (Result.call (VRef 0) (Result.m_wrap (VInt 9)) h).2 !! 1%nat
    = Some (Object Err_k (VStr "bad")).
Proof.
  intros h. split.
  - apply (other_instances_are_untouched (Result.m_join (VRef 1)) h 0%nat 1%nat
             (Object Ok_k (VInt 1)) (Object Err_k (VStr "bad")) eq_refl eq_refl);
      [lia | exact I].
  - apply (other_instances_are_untouched (Result.m_wrap (VInt 9)) h 0%nat 1%nat
             (Object Ok_k (VInt 1)) (Object Err_k (VStr "bad")) eq_refl eq_refl);
      [lia | exact I].
Defined.

(** ** join *)

(** X6: [join] needs an instance as its argument: with anything else
    ([r.join(5)], [r.join(None)], a tuple, ...) reading [other.value] raises
    [AttributeError]; no instance is created and the store is as before. *)
Theorem join_with_non_instance_raises :
  forall (h : heap) (l : loc) (o : object) (other : val),
    h !! l = Some o ->
    isinstance_ResultAbc h other = false ->
    exists e,
      Result.join (VRef l) other h = (Raises e, h) /\
      exn_cls e = AttributeError.
Proof.
  intros h l o other Hl Hother. exists attribute_error. split; [|reflexivity].
  unfold Result.join. rewrite (dispatch_instance h l o Hl).
  assert (getattr_value other h = (Raises attribute_error, h)) as Hg.
  { unfold isinstance_ResultAbc in Hother. unfold getattr_value.
    destruct other; try reflexivity.
    destruct (h !! l0); [discriminate Hother | reflexivity]. }
  unfold Ok.join, Err.join.
  destruct (cls o);
    rewrite (bindM_returns _ _ _ _ _ (getattr_value_instance h l o Hl));
    unfold bindM; rewrite Hg; reflexivity.
Qed.

Lemma join_with_non_instance_raises_witness :
  exists e,
    Result.join (VRef 0) (VInt 5) [Object Ok_k (VInt 1)]
      = (Raises e, [Object Ok_k (VInt 1)]) /\
    exn_cls e = AttributeError.
Proof.
  exact (join_with_non_instance_raises [Object Ok_k (VInt 1)] 0%nat
           (Object Ok_k (VInt 1)) (VInt 5) eq_refl eq_refl).
Defined.

(** X7: the pair made by [join] is a snapshot: after [p = a.join(b)], a
    [wrap] on any instance that existed before the call ([a] and [b]
    included) does not change what [p] holds. *)
Theorem join_pair_is_a_snapshot :
  forall (h : heap) (l1 l2 l : loc) (o1 o2 o : object) (x : val),
    h !! l1 = Some o1 ->
    h !! l2 = Some o2 ->
    h !! l = Some o ->
    exists h',
      (let! p := Result.join (VRef l1) (VRef l2) in
       let! _ := Result.wrap (VRef l) x in
       Result.unwrap p) h = (Returns (VTuple [value o1; value o2]), h') /\
      h' !! l = Some (Object (cls o) x).
Proof.
  intros h l1 l2 l o1 o2 o x H1 H2 Hl. eexists.
  rewrite (bindM_returns _ _ _ _ _ (join_instance h l1 l2 o1 o2 H1 H2)).
  assert ((h ++ [Object (cls o1) (VTuple [value o1; value o2])]) !! l
          = Some o) as Hl'.
  { exact (instantiate_keeps h l o Hl (cls o1) _). }
  rewrite (bindM_returns _ _ _ _ _ (wrap_instance _ l o Hl' x)).
  pose proof (lookup_lt_Some _ _ _ Hl) as Hlt.
  split.
  - apply (unwrap_instance _ (length h)
             (Object (cls o1) (VTuple [value o1; value o2]))).
    rewrite list_lookup_alter_ne by lia.
    rewrite lookup_app_r by lia. now rewrite Nat.sub_diag.
  - rewrite list_lookup_alter_eq, Hl'. reflexivity.
Qed.

Lemma join_pair_is_a_snapshot_witness :
  exists h',
    (let! p := Result.join (VRef 0) (VRef 1) in
     let! _ := Result.wrap (VRef 0) (VInt 9) in
     Result.unwrap p) [Object Ok_k (VInt 1); Object Ok_k (VInt 2)]
      = (Returns (VTuple [VInt 1; VInt 2]), h') /\
    h' !! 0%nat = Some (Object Ok_k (VInt 9)).
Proof.
  exact (join_pair_is_a_snapshot [Object Ok_k (VInt 1); Object Ok_k (VInt 2)]
           0%nat 1%nat 0%nat (Object Ok_k (VInt 1)) (Object Ok_k (VInt 2))
           (Object Ok_k (VInt 1)) (VInt 9) eq_refl eq_refl eq_refl).
Defined.

(** ** Laws of fmap and bind *)

Lemma observed_instantiate (k : klass) (v : val) (h : heap) :
  observed (instantiate k v h) = Returns (Some (k, v)).
Proof.
  unfold observed, instantiate. f_equal. exact (view_instantiate k v h).
Qed.

Lemma bindM_ret {A} (m : M A) (h : heap) : bindM m ret h = m h.
Proof. unfold bindM, ret. destruct (m h) as [[a|e] h']; reflexivity. Qed.

Lemma lookup_fresh (h : heap) (o : object) : (h ++ [o]) !! length h = Some o.
Proof. rewrite lookup_app_r by lia. now rewrite Nat.sub_diag. Qed.

Lemma observed_receiver h l o :
  h !! l = Some o ->
  observed (Returns (VRef l), h) = Returns (Some (cls o, value o)).
Proof. intros Hl. unfold observed, view. now rewrite Hl. Qed.

Lemma observed_fmap_pure h l o phi :
  h !! l = Some o ->
  observed (Result.fmap (VRef l) (pure_callable phi) h) =
  match cls o with
  | Ok_k => lifted Ok_k (phi (value o))
  | Err_k => Returns (Some (Err_k, value o))
  end.
Proof.
  intros Hl. destruct o as [[|] v]; cbn [cls value].
  - rewrite (fmap_Ok_instance h l v _ Hl). unfold pure_callable, lifted.
    destruct (phi v) as [w|e]; [apply observed_instantiate|].
    destruct (isinstance_Exception e); [apply observed_instantiate | reflexivity].
  - unfold Result.fmap.
    rewrite (passthrough_instance h l _ _ _ Hl);
      [exact (observed_receiver h l _ Hl) | discriminate | reflexivity].
Qed.

(** X8: identity laws, up to the identity of the object returned.  Mapping
    the identity function with [fmap] or [or_fmap], and binding the
    constructor with [bind] ([r.bind(Ok)]) or [or_bind] ([r.or_bind(Err)]),
    give an instance of the class of [r] holding the value of [r], for [r] of
    either class. *)
Theorem identity_laws :
  forall (h : heap) (l : loc) (o : object),
    h !! l = Some o ->
    let same := Returns (Some (cls o, value o)) in
    observed (Result.fmap (VRef l) (pure_callable Returns) h) = same /\
    observed (Result.or_fmap (VRef l) (pure_callable Returns) h) = same /\
    observed (Result.bind (VRef l) (instantiate Ok_k) h) = same /\
    observed (Result.or_bind (VRef l) (instantiate Err_k) h) = same.
Proof.
  intros h l [[|] v] Hl same; subst same; cbn [cls value]; repeat apply conj.
  - rewrite (observed_fmap_pure h l _ _ Hl). reflexivity.
  - unfold Result.or_fmap.
    rewrite (passthrough_instance h l _ _ _ Hl);
      [exact (observed_receiver h l _ Hl) | reflexivity | discriminate].
  - rewrite (bind_Ok_instance h l v _ Hl). apply observed_instantiate.
  - unfold Result.or_bind.
    rewrite (passthrough_instance h l _ _ _ Hl);
      [exact (observed_receiver h l _ Hl) | reflexivity | discriminate].
  - rewrite (observed_fmap_pure h l _ _ Hl). reflexivity.
  - rewrite (or_fmap_Err_instance h l v _ Hl). apply observed_instantiate.
  - unfold Result.bind.
    rewrite (passthrough_instance h l _ _ _ Hl);
      [exact (observed_receiver h l _ Hl) | discriminate | reflexivity].
  - rewrite (or_bind_Err_instance h l v _ Hl). apply observed_instantiate.
Qed.

Lemma identity_laws_witness :
  let h := [Object Ok_k (VInt 1)] in
  let same := Returns (Some (Ok_k, VInt 1)) in
  observed (Result.fmap (VRef 0) (pure_callable Returns) h) = same /\
  observed (Result.or_fmap (VRef 0) (pure_callable Returns) h) = same /\
  observed (Result.bind (VRef 0) (instantiate Ok_k) h) = same /\
  observed (Result.or_bind (VRef 0) (instantiate Err_k) h) = same.
Proof.
  exact (identity_laws [Object Ok_k (VInt 1)] 0%nat (Object Ok_k (VInt 1))
           eq_refl).
Defined.

(** X9: [fmap] fuses.  For pure callables, [r.fmap(f).fmap(g)] and
    [r.fmap(lambda x: g(f(x)))] show the same thing: the same class and
    value when they return, the same exception when they raise.  An
    exception caught from [f] stays in the [Err] and [g] is not applied to
    it. *)
Theorem fmap_fuses :
  forall (h : heap) (l : loc) (o : object) (phi psi : val -> outcome val),
    h !! l = Some o ->
    observed (call_chain (VRef l)
                [Result.m_fmap (pure_callable phi);
                 Result.m_fmap (pure_callable psi)] h)
    = observed (Result.fmap (VRef l) (pure_callable (then_apply phi psi)) h).
Proof.
  intros h l o phi psi Hl.
  rewrite (observed_fmap_pure h l o _ Hl).
  unfold call_chain, Result.call.
  destruct o as [[|] v]; cbn [cls value].
  - pose proof (fmap_Ok_instance h l v (pure_callable phi) Hl) as E1.
    unfold pure_callable at 2 in E1. unfold then_apply.
    destruct (phi v) as [w|e].
    + unfold instantiate in E1. rewrite (bindM_returns _ _ _ _ _ E1).
      rewrite bindM_ret.
      rewrite (observed_fmap_pure (h ++ [Object Ok_k w]) (length h)
                 (Object Ok_k w) psi (lookup_fresh h _)).
      reflexivity.
    + unfold lifted. destruct (isinstance_Exception e).
      * unfold instantiate in E1. rewrite (bindM_returns _ _ _ _ _ E1).
        rewrite bindM_ret.
        rewrite (observed_fmap_pure (h ++ [Object Err_k (VExc e)]) (length h)
                   (Object Err_k (VExc e)) psi (lookup_fresh h _)).
        reflexivity.
      * unfold bindM. rewrite E1. reflexivity.
  - assert (forall f, Result.fmap (VRef l) f h = (Returns (VRef l), h)) as E.
    { intros f.
      apply (passthrough_instance h l _ _ _ Hl); [discriminate | reflexivity]. }
    rewrite (bindM_returns _ _ _ _ _ (E _)), bindM_ret, E.
    exact (observed_receiver h l _ Hl).
Qed.

Lemma fmap_fuses_witness :
  let h := [Object Ok_k (VInt 3)] in
  let phi := fun v => match v with
                      | VInt z => Returns (VInt (z + 2))
                      | _ => Raises (Exn TypeError "unsupported operand")
                      end in
  let psi := fun v => match v with
                      | VInt z => Returns (VInt (z * z))
                      | _ => Raises (Exn TypeError "unsupported operand")
                      end in
  observed (call_chain (VRef 0)
              [Result.m_fmap (pure_callable phi);
               Result.m_fmap (pure_callable psi)] h)
  = observed (Result.fmap (VRef 0) (pure_callable (then_apply phi psi)) h).
Proof.
  intros h phi psi.
  exact (fmap_fuses h 0%nat (Object Ok_k (VInt 3)) phi psi eq_refl).
Defined.

(** X10: [bind] is associative, exactly: [r.bind(f).bind(g)] and
    [r.bind(lambda x: f(x).bind(g))] do the same thing (same result, same
    exception, same store) for [r] of either class and any [f], [g]; so is
    [or_bind]. *)
Theorem bind_is_associative :
  forall (h : heap) (l : loc) (o : object) (f g : callable),
    h !! l = Some o ->
    (let! y := Result.bind (VRef l) f in Result.bind y g) h
      = Result.bind (VRef l) (fun x => let! y := f x in Result.bind y g) h /\
    (let! y := Result.or_bind (VRef l) f in Result.or_bind y g) h
      = Result.or_bind (VRef l) (fun x => let! y := f x in Result.or_bind y g) h.
Proof.
  intros h l [[|] v] f g Hl; split.
  - unfold bindM at 1.
    rewrite !(bind_Ok_instance h l v _ Hl). reflexivity.
  - assert (forall k, Result.or_bind (VRef l) k h = (Returns (VRef l), h)) as E.
    { intros k.
      apply (passthrough_instance h l _ _ _ Hl); [reflexivity | discriminate]. }
    rewrite (bindM_returns _ _ _ _ _ (E _)), !E. reflexivity.
  - assert (forall k, Result.bind (VRef l) k h = (Returns (VRef l), h)) as E.
    { intros k.
      apply (passthrough_instance h l _ _ _ Hl); [discriminate | reflexivity]. }
    rewrite (bindM_returns _ _ _ _ _ (E _)), !E. reflexivity.
  - unfold bindM at 1.
    rewrite !(or_bind_Err_instance h l v _ Hl). reflexivity.
Qed.

Lemma bind_is_associative_witness :
  let h := [Object Ok_k (VInt 1)] in
  let f : callable := fun x => instantiate Ok_k (VTuple [x]) in
  let g : callable := fun x => instantiate Err_k x in
  (let! y := Result.bind (VRef 0) f in Result.bind y g) h
    = Result.bind (VRef 0) (fun x => let! y := f x in Result.bind y g) h /\
  (let! y := Result.or_bind (VRef 0) f in Result.or_bind y g) h
    = Result.or_bind (VRef 0) (fun x => let! y := f x in Result.or_bind y g) h.
Proof.
  intros h f g.
  exact (bind_is_associative h 0%nat (Object Ok_k (VInt 1)) f g eq_refl).
Defined.

(** ** The two sides together *)

(** X11: in [r.fmap(f).or_fmap(g)] on an [Ok], [g] sees exactly the
    exceptions caught from [f]: when [f] returns [w] the chain gives [Ok w]
    and [g] is not run; when [f] raises an exception deriving from
    [Exception], [g] is applied to that exception and the chain gives an
    [Err] holding what [g] returned. *)
Theorem or_fmap_maps_the_caught_exception :
  forall (h : heap) (l : loc) (v : val) (f g : callable),
    h !! l = Some (Object Ok_k v) ->
    (forall w h1,
        f v h = (Returns w, h1) ->
        call_chain (VRef l) [Result.m_fmap f; Result.m_or_fmap g] h
          = instantiate Ok_k w h1) /\
    (forall e h1 u h2,
        f v h = (Raises e, h1) ->
        isinstance_Exception e = true ->
        g (VExc e) (h1 ++ [Object Err_k (VExc e)]) = (Returns u, h2) ->
        call_chain (VRef l) [Result.m_fmap f; Result.m_or_fmap g] h
          = instantiate Err_k u h2).
Proof.
  intros h l v f g Hl. unfold call_chain, Result.call. split.
  - intros w h1 Hf.
    pose proof (fmap_Ok_instance h l v f Hl) as E1. rewrite Hf in E1.
    unfold instantiate in E1 at 1.
    rewrite (bindM_returns _ _ _ _ _ E1), bindM_ret.
    unfold Result.or_fmap.
    apply (passthrough_instance _ (length h1) _ _ _ (lookup_fresh h1 _));
      [reflexivity | discriminate].
  - intros e h1 u h2 Hf He Hg.
    pose proof (fmap_Ok_instance h l v f Hl) as E1. rewrite Hf, He in E1.
    unfold instantiate in E1.
    rewrite (bindM_returns _ _ _ _ _ E1), bindM_ret.
    rewrite (or_fmap_Err_instance _ (length h1) (VExc e) g (lookup_fresh h1 _)).
    rewrite Hg. reflexivity.
Qed.

Lemma or_fmap_maps_the_caught_exception_witness :
  let h := [Object Ok_k (VInt 1)] in
  let g : callable :=
    fun x => match x with
             | VExc e => ret (VStr (exn_msg e))
             | _ => raise (Exn TypeError "not an exception")
             end in
  call_chain (VRef 0) [Result.m_fmap (fun _ => ret (VInt 2)); Result.m_or_fmap g] h
    = (Returns (VRef 1), h ++ [Object Ok_k (VInt 2)]) /\
  call_chain (VRef 0)
    [Result.m_fmap (fun _ => raise zero_division); Result.m_or_fmap g] h
    = (Returns (VRef 2),
       h ++ [Object Err_k (VExc zero_division);
             Object Err_k (VStr "division by zero")]).
Proof.
  intros h g. split.
  - exact (proj1 (or_fmap_maps_the_caught_exception h 0%nat (VInt 1)
                    (fun _ => ret (VInt 2)) g eq_refl)
             (VInt 2) h eq_refl).
  - exact (proj2 (or_fmap_maps_the_caught_exception h 0%nat (VInt 1)
                    (fun _ => raise zero_division) g eq_refl)
             zero_division h (VStr "division by zero")
             (h ++ [Object Err_k (VExc zero_division)])
             eq_refl eq_refl eq_refl).
Defined.

(** ** What the guarded calls can give *)

(** X12: called without a keyword argument named [f], [check_f] never
    lets an exception deriving from [Exception] out.  If it raises, the
    exception is one outside [Exception] that [f] raised; if it returns, it
    returns an instance: an [Ok], or an [Err] holding an exception deriving
    from [Exception]. *)
Theorem check_f_outcome :
  forall (f : callable_star) (a : list val) (kw : list (string * val))
         (h h' : heap) (out : outcome val),
    names_f kw = false ->
    check_f f a kw h = (out, h') ->
    match out with
    | Returns r =>
        (exists v, view h' r = Some (Ok_k, v)) \/
        (exists e, view h' r = Some (Err_k, VExc e)
                   /\ isinstance_Exception e = true)
    | Raises e => isinstance_Exception e = false /\ f a kw h = (Raises e, h')
    end.
Proof.
  intros f a kw h h' out Hkw. rewrite (check_f_cases f a kw h Hkw).
  destruct (f a kw h) as [[r|e] h1].
  - intros E. injection E as <- <-. left. exists r. apply view_instantiate.
  - destruct (isinstance_Exception e) eqn:He; intros E; injection E as <- <-.
    + right. exists e. split; [apply view_instantiate | exact He].
    + split; [exact He | reflexivity].
Qed.

Lemma check_f_outcome_witness :
  (exists e, view [Object Err_k (VExc zero_division)] (VRef 0)
             = Some (Err_k, VExc e)
             /\ isinstance_Exception e = true) /\
  isinstance_Exception system_exit = false.
Proof.
  split.
  - pose proof (check_f_outcome (fun _ _ => raise zero_division) [] [] []
                  [Object Err_k (VExc zero_division)] (Returns (VRef 0))
                  eq_refl eq_refl) as [[v Hv]|He].
    + discriminate Hv.
    + exact He.
  - exact (proj1 (check_f_outcome (fun _ _ => raise system_exit) [] [] []
                    [] (Raises system_exit) eq_refl eq_refl)).
Defined.

(** X13: [fmap], [and_fmap] and [or_fmap] called on an instance never let
    an exception deriving from [Exception] out, and what they return is
    always an instance. *)
Theorem guarded_methods_outcome :
  forall (h h' : heap) (l : loc) (o : object) (f : callable)
         (out : outcome val),
    h !! l = Some o ->
    Result.fmap (VRef l) f h = (out, h') \/
    Result.and_fmap (VRef l) f h = (out, h') \/
    Result.or_fmap (VRef l) f h = (out, h') ->
    match out with
    | Returns r => exists k v, view h' r = Some (k, v)
    | Raises e => isinstance_Exception e = false
    end.
Proof.
  intros h h' l o f out Hl Hcall.
  assert (forall k,
             match f (value o) h with
             | (Returns w, h1) => instantiate k w h1
             | (Raises e, h1) =>
                 if isinstance_Exception e then instantiate Err_k (VExc e) h1
                 else (Raises e, h1)
             end = (out, h') ->
             match out with
             | Returns r => exists k v, view h' r = Some (k, v)
             | Raises e => isinstance_Exception e = false
             end) as Happlied.
  { intros k. destruct (f (value o) h) as [[w|e] h1].
    - intros E. injection E as <- <-. exists k, w. apply view_instantiate.
    - destruct (isinstance_Exception e) eqn:He; intros E; injection E as <- <-.
      + exists Err_k, (VExc e). apply view_instantiate.
      + exact He. }
  assert ((Returns (VRef l), h) = (out, h') ->
          match out with
          | Returns r => exists k v, view h' r = Some (k, v)
          | Raises e => isinstance_Exception e = false
          end) as Hself.
  { intros E. injection E as <- <-. exists (cls o), (value o).
    unfold view. now rewrite Hl. }
  destruct o as [[|] v]; cbn [value] in Happlied.
  - destruct Hcall as [E|[E|E]].
    + rewrite (fmap_Ok_instance h l v f Hl) in E. exact (Happlied Ok_k E).
    + change (Result.and_fmap (VRef l) f h) with (Result.fmap (VRef l) f h) in E.
      rewrite (fmap_Ok_instance h l v f Hl) in E. exact (Happlied Ok_k E).
    + unfold Result.or_fmap in E.
      rewrite (passthrough_instance h l _ _ _ Hl) in E;
        [exact (Hself E) | reflexivity | discriminate].
  - destruct Hcall as [E|[E|E]].
    + unfold Result.fmap in E.
      rewrite (passthrough_instance h l _ _ _ Hl) in E;
        [exact (Hself E) | discriminate | reflexivity].
    + unfold Result.and_fmap in E.
      rewrite (passthrough_instance h l _ _ _ Hl) in E;
        [exact (Hself E) | discriminate | reflexivity].
    + rewrite (or_fmap_Err_instance h l v f Hl) in E. exact (Happlied Err_k E).
Qed.

Lemma guarded_methods_outcome_witness :
  (exists k v,
      view [Object Ok_k (VInt 1); Object Err_k (VExc zero_division)] (VRef 1)
        = Some (k, v)) /\
  isinstance_Exception keyboard_interrupt = false.
Proof.
  split.
  - exact (guarded_methods_outcome [Object Ok_k (VInt 1)]
             [Object Ok_k (VInt 1); Object Err_k (VExc zero_division)]
             0%nat (Object Ok_k (VInt 1)) (fun _ => raise zero_division)
             (Returns (VRef 1)) eq_refl (or_introl eq_refl)).
  - exact (guarded_methods_outcome [Object Err_k (VInt 1)]
             [Object Err_k (VInt 1)]
             0%nat (Object Err_k (VInt 1)) (fun _ => raise keyboard_interrupt)
             (Raises keyboard_interrupt) eq_refl (or_intror (or_intror eq_refl))).
Defined.

(** ** flatten *)

(** X14: on every instance [flatten] does what [unwrap] does: it returns
    the contained value as it is, for either class and whatever the value
    is, so [Ok(Err(e)).flatten()] is the inner [Err] just as
    [Ok(Ok(v)).flatten()] is the inner [Ok]. *)
Theorem flatten_is_unwrap :
  forall (h : heap) (l : loc) (o : object),
    h !! l = Some o ->
    Result.flatten (VRef l) h = Result.unwrap (VRef l) h /\
    Result.flatten (VRef l) h = (Returns (value o), h).
Proof.
  intros h l o Hl. rewrite (unwrap_instance h l o Hl).
  split; exact (flatten_instance h l o Hl).
Qed.

Lemma flatten_is_unwrap_witness :
  let h := [Object Err_k (VStr "bad"); Object Ok_k (VRef 0)] in
  Result.flatten (VRef 1) h = Result.unwrap (VRef 1) h /\
  Result.flatten (VRef 1) h = (Returns (VRef 0), h).
Proof.
  exact (flatten_is_unwrap [Object Err_k (VStr "bad"); Object Ok_k (VRef 0)]
           1%nat (Object Ok_k (VRef 0)) eq_refl).
Defined.

(** * sumenum.py *)

Section SumFacts.
Import SumEnum.
Context (bases : plain_class -> list plain_class) (E : sum_class).

Lemma sum_first_name_at v pre n post :
  (forall n' v', (n', v') ∈ pre -> v' <> v) ->
  first_name v (pre ++ (n, v) :: post) = Some (spelling n).
Proof.
  intros Hpre. induction pre as [|[n0 v0] pre IH]; simpl.
  - now rewrite Nat.eqb_refl.
  - destruct (Nat.eqb v0 v) eqn:E0.
    + apply Nat.eqb_eq in E0. exfalso. apply (Hpre n0 v0); [left | exact E0].
    + apply IH. intros n' v' Hin. apply (Hpre n' v'). now right.
Qed.

Lemma sum_assoc_at (G : member_name * plain_class -> pyobj) pre n v post :
  spelling n ∉ (fun nv => spelling nv.1) <$> pre ->
  assoc (spelling n)
    (map (fun nv => (spelling nv.1, G nv)) (pre ++ (n, v) :: post))
    = Some (G (n, v)).
Proof.
  intros Hn. induction pre as [|[n0 v0] pre IH]; simpl.
  - now rewrite String.eqb_refl.
  - simpl in Hn. apply not_elem_of_cons in Hn as [Hne Hn].
    destruct (String.eqb (spelling n0) (spelling n)) eqn:En.
    + apply String.eqb_eq in En. congruence.
    + exact (IH Hn).
Qed.

Lemma sum_names_split pre (n : member_name) (v : plain_class) post :
  NoDup ((fun nv => spelling nv.1) <$> (pre ++ (n, v) :: post)) ->
  spelling n ∉ (fun nv => spelling nv.1) <$> pre.
Proof.
  rewrite fmap_app. intros Hnd. apply NoDup_app in Hnd as (_ & Hd & _).
  intros Hin. apply (Hd _ Hin). simpl. left.
Qed.

(** [E[n]] for a line [n = v] of the body. *)
Lemma sum_getitem_at pre n v post :
  NoDup ((fun nv => spelling nv.1) <$> body E) ->
  body E = pre ++ (n, v) :: post ->
  __getitem__ E (spelling n) = Value (member E (spelling n) v).
Proof.
  intros Hnd Hbody. unfold __getitem__, __members__.
  rewrite Hbody in Hnd. rewrite Hbody at 1.
  now rewrite (sum_assoc_at (fun nv => member E (spelling nv.1) nv.2)
                 pre n v post (sum_names_split pre n v post Hnd)).
Qed.

Lemma sum_missing_loop_at x pre n v post :
  (forall n' v', (n', v') ∈ pre -> isinstance bases x v' = false) ->
  isinstance bases x v = true ->
  missing_loop bases E x
    (map (fun nv => (spelling nv.1, member E (spelling nv.1) nv.2))
       (pre ++ (n, v) :: post))
    = __getitem__ E (spelling n).
Proof.
  intros Hpre Hv. induction pre as [|[n0 v0] pre IH]; simpl.
  - now rewrite Hv.
  - rewrite (Hpre n0 v0) by left. apply IH.
    intros n' v' Hin. apply (Hpre n' v'). now right.
Qed.

Lemma sum_missing_loop_none x b :
  (forall n v, (n, v) ∈ b -> isinstance bases x v = false) ->
  missing_loop bases E x
    (map (fun nv => (spelling nv.1, member E (spelling nv.1) nv.2)) b)
    = Value PNone.
Proof.
  intros Hb. induction b as [|[n0 v0] b IH]; simpl; [reflexivity|].
  rewrite (Hb n0 v0) by left. apply IH.
  intros n v Hin. apply (Hb n v). now right.
Qed.

Lemma sum_body_match {A} (a b : A) :
  body E <> [] ->
  match body E with [] => a | _ :: _ => b end = b.
Proof. destruct (body E); [congruence | reflexivity]. Qed.

(** [E(x)] for an instance [x] of class [c], when the first line of the
    body whose class [c] derives from is [n = v]. *)
Lemma sum_call_first_match c pre n v post :
  NoDup ((fun nv => spelling nv.1) <$> body E) ->
  body E = pre ++ (n, v) :: post ->
  issubclass bases c v = true ->
  (forall n' v', (n', v') ∈ pre -> issubclass bases c v' = false) ->
  call bases E (PInstance c) = Value (PMember (sid E) (spelling n) v).
Proof.
  intros Hnd Hbody Hv Hpre.
  assert (forall n' v', (n', v') ∈ pre -> v' <> v) as Hdiff.
  { intros n' v' Hin ->. rewrite (Hpre n' v Hin) in Hv. discriminate Hv. }
  unfold call. cbn [is_member_of by_value].
  rewrite sum_body_match by (rewrite Hbody; now destruct pre).
  unfold _missing_, __members__. rewrite Hbody at 1.
  rewrite (sum_missing_loop_at (PInstance c) pre n v post Hpre Hv).
  rewrite (sum_getitem_at pre n v post Hnd Hbody).
  unfold member. rewrite Hbody.
  rewrite (sum_first_name_at v pre n post Hdiff). simpl.
  now rewrite Nat.eqb_refl.
Qed.

Lemma sum_call_no_match c :
  body E <> [] ->
  (forall n v, (n, v) ∈ body E -> issubclass bases c v = false) ->
  call bases E (PInstance c) = Error (ValueError (PInstance c)).
Proof.
  intros Hne Hall. unfold call. cbn [is_member_of by_value].
  rewrite sum_body_match by exact Hne.
  unfold _missing_, __members__.
  now rewrite (sum_missing_loop_none (PInstance c) (body E) Hall).
Qed.

(** A list either has no entry satisfying a test or splits at the first
    one. *)
Lemma sum_first_split (p : member_name * plain_class -> bool)
    (b : list (member_name * plain_class)) :
  (forall nv, nv ∈ b -> p nv = false) \/
  (exists pre nv post,
      b = pre ++ nv :: post /\ p nv = true /\
      forall nv', nv' ∈ pre -> p nv' = false).
Proof.
  induction b as [|nv0 b IH].
  - left. intros nv Hin. inversion Hin.
  - destruct (p nv0) eqn:E0.
    + right. exists [], nv0, b. split; [reflexivity|]. split; [exact E0|].
      intros nv' Hin. inversion Hin.
    + destruct IH as [Hall|(pre & nv & post & -> & Hnv & Hpre)].
      * left. intros nv Hin. apply elem_of_cons in Hin as [->|Hin]; auto.
      * right. exists (nv0 :: pre), nv, post. split; [reflexivity|].
        split; [exact Hnv|].
        intros nv' Hin. apply elem_of_cons in Hin as [->|Hin]; auto.
Qed.

End SumFacts.

Section SumTheorems.
Import SumEnum.

Lemma sum_FooOrBar_names : NoDup ((fun nv => spelling nv.1) <$> body FooOrBar).
Proof.
  simpl. apply NoDup_cons. split; [|apply NoDup_singleton].
  intros H. apply list_elem_of_singleton in H. discriminate H.
Qed.

(** X15: [E(x)] on an instance [x] tags it with the first member, in the
    order of the class body, whose class [x] is an instance of; when [x] is
    an instance of none of the members' classes the call raises
    [ValueError]. *)
Theorem sum_tags_by_first_match :
  forall (bases : plain_class -> list plain_class) (E : sum_class)
         (c : plain_class),
    NoDup ((fun nv => spelling nv.1) <$> body E) ->
    (forall pre n v post,
        body E = pre ++ (n, v) :: post ->
        issubclass bases c v = true ->
        (forall n' v', (n', v') ∈ pre -> issubclass bases c v' = false) ->
        call bases E (PInstance c) = Value (PMember (sid E) (spelling n) v)) /\
    (body E <> [] ->
     (forall n v, (n, v) ∈ body E -> issubclass bases c v = false) ->
     call bases E (PInstance c) = Error (ValueError (PInstance c))).
Proof.
  intros bases E c Hnd. split.
  - intros pre n v post Hbody Hv Hpre.
    exact (sum_call_first_match bases E c pre n v post Hnd Hbody Hv Hpre).
  - intros Hne Hall. exact (sum_call_no_match bases E c Hne Hall).
Qed.

Lemma sum_tags_by_first_match_witness :
  let bases : plain_class -> list plain_class :=
    fun c => match c with 2%nat => [Bar] | _ => [] end in
  call bases FooOrBar (PInstance 2) = Value (PMember 0 "BAR" Bar) /\
  call bases FooOrBar (PInstance 3) = Error (ValueError (PInstance 3)).
Proof.
  intros bases. split.
  - apply (proj1 (sum_tags_by_first_match bases FooOrBar 2%nat
                    sum_FooOrBar_names)
             [(MemberName "FOO" eq_refl, Foo)] (MemberName "BAR" eq_refl) Bar []);
      [reflexivity | reflexivity |].
    intros n' v' Hin. apply list_elem_of_singleton in Hin.
    injection Hin as -> ->. reflexivity.
  - apply (proj2 (sum_tags_by_first_match bases FooOrBar 3%nat
                    sum_FooOrBar_names)).
    + discriminate.
    + intros n v Hin. simpl in Hin.
      apply elem_of_cons in Hin as [Hin|Hin];
        [|apply list_elem_of_singleton in Hin];
        injection Hin as -> ->; reflexivity.
Defined.

(** X16: let [M = v] be the first line of the body of [E] with the class
    [v].  Every name of the body bound to [v], [M] and its aliases, stands
    for the one member [E.M]; calling that member gives an instance of [v];
    and tagging that instance again, [E(E.M())], gives [E.M] back exactly
    when no line before [M] has a class that [v] derives from. *)
Theorem sum_member_round_trip :
  forall (bases : plain_class -> list plain_class) (E : sum_class)
         (pre : list (member_name * plain_class)) (n : member_name)
         (v : plain_class) (post : list (member_name * plain_class)),
    NoDup ((fun nv => spelling nv.1) <$> body E) ->
    body E = pre ++ (n, v) :: post ->
    (forall n' v', (n', v') ∈ pre -> v' <> v) ->
    let m := PMember (sid E) (spelling n) v in
    (forall n2, (n2, v) ∈ body E -> __getitem__ E (spelling n2) = Value m) /\
    __call__ m [] = Value (PInstance v) /\
    (call bases E (PInstance v) = Value m
     <-> forall n' v', (n', v') ∈ pre -> issubclass bases v v' = false).
Proof.
  intros bases E pre n v post Hnd Hbody Hfirst m.
  assert (issubclass bases v v = true) as Hrefl.
  { unfold issubclass. now rewrite Nat.eqb_refl. }
  split; [|split; [reflexivity|split]].
  - intros n2 Hin.
    apply list_elem_of_split in Hin as (p2 & q2 & Hb2).
    rewrite (sum_getitem_at E p2 n2 v q2 Hnd Hb2).
    unfold member. rewrite Hbody.
    now rewrite (sum_first_name_at v pre n post Hfirst).
  - intros Hcall.
    destruct (sum_first_split (fun nv => issubclass bases v nv.2) pre)
      as [Hall|(p1 & [n1 v1] & p2 & Hpre & H1 & Hp1)].
    + intros n' v' Hin. exact (Hall (n', v') Hin).
    + exfalso. simpl in H1.
      assert (body E = p1 ++ (n1, v1) :: (p2 ++ (n, v) :: post)) as Hbody'.
      { rewrite Hbody, Hpre, <- app_assoc. reflexivity. }
      rewrite (sum_call_first_match bases E v p1 n1 v1 _ Hnd Hbody' H1)
        in Hcall.
      2: { intros n' v' Hin. exact (Hp1 (n', v') Hin). }
      injection Hcall as _ Hv.
      apply (Hfirst n1 v1); [|exact Hv].
      rewrite Hpre. apply elem_of_app. right. left.
  - intros Hpre.
    exact (sum_call_first_match bases E v pre n v post Hnd Hbody Hrefl Hpre).
Qed.

Lemma sum_member_round_trip_witness :
  let bases : plain_class -> list plain_class := fun _ => [] in
  let m := PMember 0 "BAR" Bar in
  (forall n2, (n2, Bar) ∈ body FooOrBar -> __getitem__ FooOrBar (spelling n2) = Value m) /\
  __call__ m [] = Value (PInstance Bar) /\
  (call bases FooOrBar (PInstance Bar) = Value m
   <-> forall n' v', (n', v') ∈ [(MemberName "FOO" eq_refl, Foo)] ->
                     issubclass bases Bar v' = false).
Proof.
  intros bases.
  apply (sum_member_round_trip bases FooOrBar
           [(MemberName "FOO" eq_refl, Foo)] (MemberName "BAR" eq_refl) Bar []
           sum_FooOrBar_names eq_refl).
  intros n' v' Hin. apply list_elem_of_singleton in Hin.
  injection Hin as -> ->. discriminate.
Defined.

(** X17: [takes_foo_or_bar] prints the tag of a member of [FooOrBar] and
    returns that member itself; given anything that is not an enum member
    (an instance of [Foo], a class, [None]) it prints nothing and raises
    [AttributeError] on [fb.name]. *)
Theorem takes_foo_or_bar_spec :
  forall (bases : plain_class -> list plain_class) (fb : pyobj)
         (out : list string),
    (forall n v,
        fb = PMember (sid FooOrBar) n v ->
        takes_foo_or_bar bases fb out
          = (Value fb, out ++ [String.append "Argument's tag is " n])) /\
    ((forall en n v, fb <> PMember en n v) ->
     takes_foo_or_bar bases fb out = (Error (AttributeError "name"), out)).
Proof.
  intros bases fb out. split.
  - intros n v ->. reflexivity.
  - intros Hnot. destruct fb as [| | |en n v]; try reflexivity.
    exfalso. exact (Hnot en n v eq_refl).
Qed.

Lemma takes_foo_or_bar_spec_witness :
  let bases : plain_class -> list plain_class := fun _ => [] in
  takes_foo_or_bar bases (PMember 0 "FOO" Foo) []
    = (Value (PMember 0 "FOO" Foo), ["Argument's tag is FOO"]) /\
  takes_foo_or_bar bases (PInstance Foo) [] = (Error (AttributeError "name"), []).
Proof.
  intros bases. split.
  - exact (proj1 (takes_foo_or_bar_spec bases (PMember 0 "FOO" Foo) [])
             "FOO" Foo eq_refl).
  - apply (proj2 (takes_foo_or_bar_spec bases (PInstance Foo) [])).
    intros en n v H. discriminate H.
Defined.

End SumTheorems.
